(** * A Rocq model of the webcam-to-glyph transcoder (src/2/script.js)

    The development has three layers.

    - [Number]: the JavaScript Number type.  Every arithmetic value of the
      script is an IEEE 754 binary64 number; it is modelled by the Standard
      Library's executable specification [spec_float] at [prec = 53],
      [emax = 1024], so that [a / b], [a * b], [Math.sqrt] and the
      comparisons round exactly as the script does.
    - [Core]: the functions of the script ([getColor], the body of the scan
      loop of [draw], [draw] and [handleResize]), written over the three
      configuration constants of the script as section variables.
    - [Script]: the configuration the script ships with.

    Loop counters, canvas dimensions and array indices are machine integers
    of the script that stay far below 2^53; they are kept in [Z] and enter
    the Number world through [of_Z] exactly where the script uses them in a
    division, a comparison or a subtraction with a fractional value. *)

From Stdlib Require Import ZArith List Bool Lia String Ascii.
From Stdlib Require Import Floats.SpecFloat.
Import ListNotations.
Local Open Scope Z_scope.

(** ** JavaScript numbers *)

Module Number.

Definition prec : Z := 53.
Definition emax : Z := 1024.

Definition number : Type := spec_float.

Definition NaN : number := S754_nan.

(** An integer literal, an array element or a [length]. *)
Definition of_Z (z : Z) : number := binary_normalize prec emax z 0 false.

Definition add : number -> number -> number := SFadd prec emax.
Definition sub : number -> number -> number := SFsub prec emax.
Definition mul : number -> number -> number := SFmul prec emax.
Definition div : number -> number -> number := SFdiv prec emax.

(** [a < b] and [a > b]; both are false as soon as one side is NaN. *)
Definition ltb (a b : number) : bool := SFltb a b.
Definition gtb (a b : number) : bool := ltb b a.
Definition leb (a b : number) : bool := SFleb a b.

(** [x ** 2].  The bases the script squares are differences of integers
    and half-integers, whose squares are representable, so the power is
    the correctly rounded product. *)
Definition square (x : number) : number := mul x x.

Definition Math_sqrt : number -> number := SFsqrt prec emax.
Definition Math_abs : number -> number := SFabs.

(** [Math.max] and [Math.min] of two arguments: NaN is contagious and
    [-0] is smaller than [+0]. *)
Definition Math_max (a b : number) : number :=
  match a, b with
  | S754_nan, _ | _, S754_nan => S754_nan
  | S754_zero sa, S754_zero sb => S754_zero (sa && sb)
  | _, _ => if ltb a b then b else a
  end.

Definition Math_min (a b : number) : number :=
  match a, b with
  | S754_nan, _ | _, S754_nan => S754_nan
  | S754_zero sa, S754_zero sb => S754_zero (sa || sb)
  | _, _ => if ltb b a then b else a
  end.

(** [Math.floor]: only a finite number with a negative exponent has a
    fractional part; its floor is below 2^53 in magnitude. *)
Definition Math_floor (x : number) : number :=
  match x with
  | S754_finite s m (Zneg k) => of_Z (cond_Zopp s (Zpos m) / 2 ^ Zpos k)
  | _ => x
  end.

(** The integer a number denotes, when it denotes one (used for property
    access [s[k]] with a Number key). *)
Definition integer_value (x : number) : option Z :=
  match x with
  | S754_zero _ => Some 0
  | S754_finite s m e =>
      match e with
      | Zneg k =>
          if Zpos m mod 2 ^ Zpos k =? 0
          then Some (cond_Zopp s (Zpos m / 2 ^ Zpos k))
          else None
      | _ => Some (cond_Zopp s (Zpos m * 2 ^ e))
      end
  | _ => None
  end.

(** The literal [0.3] (the binary64 number nearest to 3/10) and [1.0]. *)
Definition lit_0_3 : number := S754_finite false 5404319552844595 (-54).
Definition lit_1_0 : number := S754_finite false 4503599627370496 (-52).

(** Integers of magnitude below 2^53 are the ones [of_Z] represents
    without rounding. *)
Definition exact_int (z : Z) : Prop := Z.abs z < 2 ^ prec.

(** Left shift of a mantissa, and the normal form of the integer [p]. *)
Definition lsl (p : positive) (k : Z) : positive :=
  match k with Zpos d => Pos.iter xO p d | _ => p end.

Definition canon (s : bool) (p : positive) : number :=
  S754_finite s (lsl p (prec - Zpos (digits2_pos p))) (Zpos (digits2_pos p) - prec).

End Number.

(** ** The script *)

Module Core.
Import Number.

(** [`hsl(${h}, ${s}%, ${l}%)`]: the CSS colour string, kept structured. *)
Inductive color : Type :=
| hsl (h s : Z) (l : number).

(** [const lit = Math.max(30, Math.min(80, (brightness / 255) * 100))] *)
Definition lit (brightness : number) : number :=
  Math_max (of_Z 30) (Math_min (of_Z 80) (mul (div brightness (of_Z 255)) (of_Z 100))).

(** [dist] of the middle band: distance to the centre of the frame. *)
Definition dist (y height x width : number) : number :=
  let cx := div width (of_Z 2) in
  let cy := div height (of_Z 2) in
  Math_sqrt (add (square (sub x cx)) (square (sub y cy))).

Definition getColor (y height x width brightness : number) : color :=
  let lit := lit brightness in
  if ltb y (div height (of_Z 3)) then
    hsl 25 100 lit
  else if ltb y (mul (div height (of_Z 3)) (of_Z 2)) then
    if ltb (dist y height x width) (div height (of_Z 6)) then
      hsl 240 100 lit
    else
      hsl 0 0 lit
  else
    hsl 130 90 lit.

(** [previousFrameData] is either the plain empty array [[]] it is
    initialised and reset to, or a [Uint8ClampedArray]. *)
Inductive buffer : Type :=
| EmptyArray
| Uint8ClampedArray (bytes : list Z).

Definition buffer_length (b : buffer) : Z :=
  match b with
  | EmptyArray => 0
  | Uint8ClampedArray bytes => Z.of_nat (List.length bytes)
  end.

(** [a[i]] used as a number: a missing element is [undefined], which
    arithmetic turns into NaN. *)
Definition elem (a : list Z) (i : Z) : number :=
  if i <? 0 then NaN
  else match nth_error a (Z.to_nat i) with
       | Some v => of_Z v
       | None => NaN
       end.

Definition buffer_elem (b : buffer) (i : Z) : number :=
  match b with
  | EmptyArray => NaN
  | Uint8ClampedArray bytes => elem bytes i
  end.

(** [target.set(source)]: a plain array has no [set] (TypeError), a typed
    array refuses a longer source (RangeError) and otherwise overwrites
    its first [source.length] elements. *)
Definition buffer_set (target : buffer) (source : list Z) : option buffer :=
  match target with
  | EmptyArray => None
  | Uint8ClampedArray bytes =>
      if (List.length source <=? List.length bytes)%nat
      then Some (Uint8ClampedArray (source ++ skipn (List.length source) bytes))
      else None
  end.

(** [s[k]] for a Number key [k]: a character, or [undefined]. *)
Definition string_at (s : string) (k : number) : option ascii :=
  match integer_value k with
  | Some n => if n <? 0 then None else String.get (Z.to_nat n) s
  | None => None
  end.

(** [for (let i = start; i < stop; i += step)]: the values [i] takes. *)
Fixpoint for_range (fuel : nat) (i stop step : Z) : list Z :=
  match fuel with
  | O => []
  | S fuel' => if i <? stop then i :: for_range fuel' (i + step) stop step else []
  end.

(** One [ctx.fillText(char, -fontSize, 0)] with the canvas state it is
    issued under: the translation, [fillStyle] and [globalAlpha]. *)
Record fillText : Type := {
  text : option ascii;
  translate_x : Z;
  translate_y : Z;
  fillStyle : color;
  globalAlpha : number
}.

(** One iteration of the scan: its cell, the locals [avg] and [isMoving],
    and the [fillText] it issued, if any. *)
Record iteration : Type := {
  cell_x : Z;
  cell_y : Z;
  avg : number;
  isMoving : bool;
  call : option fillText
}.

Record state : Type := {
  canvas_width : Z;
  canvas_height : Z;
  previousFrameData : buffer
}.

Section Config.
Variable fontSize : Z.
Variable chars : string.
Variable motionThreshold : Z.

Definition chars_length : number := of_Z (Z.of_nat (String.length chars)).

(** [const avg = (r + g + b) / 3] at pixel offset [i]. *)
Definition pixel_avg (data : list Z) (i : Z) : number :=
  let r := elem data i in
  let g := elem data (i + 1) in
  let b := elem data (i + 2) in
  div (add (add r g) b) (of_Z 3).

(** [const isMoving = Math.abs(g - prevG) > motionThreshold] *)
Definition pixel_isMoving (data : list Z) (prev : buffer) (i : Z) : bool :=
  let g := elem data (i + 1) in
  let prevG := buffer_elem prev (i + 1) in
  let diff := Math_abs (sub g prevG) in
  gtb diff (of_Z motionThreshold).

(** [const charIndex = Math.floor((avg / 255) * (chars.length - 1))] *)
Definition charIndex (avg : number) : number :=
  Math_floor (mul (div avg (of_Z 255)) (sub chars_length (of_Z 1))).

(** [const char = chars[chars.length - 1 - charIndex]] *)
Definition char (avg : number) : option ascii :=
  string_at chars (sub (sub chars_length (of_Z 1)) (charIndex avg)).

(** The body of the inner loop at cell [(x, y)]. *)
Definition scan_cell (width height : Z) (data : list Z) (prev : buffer)
           (y x : Z) : iteration :=
  let i := (y * width + x) * 4 in
  let avg := pixel_avg data i in
  let isMoving := pixel_isMoving data prev i in
  {| cell_x := x; cell_y := y; avg := avg; isMoving := isMoving;
     call :=
       if gtb avg (of_Z 15) then
         Some {| text := char avg;
                 translate_x := x;
                 translate_y := y;
                 fillStyle := getColor (of_Z y) (of_Z height) (of_Z x) (of_Z width) avg;
                 globalAlpha := if isMoving then lit_1_0 else lit_0_3 |}
       else None |}.

Definition steps (stop : Z) : list Z :=
  for_range (Z.to_nat stop) 0 stop fontSize.

(** The two nested loops of [draw]. *)
Definition scan (width height : Z) (data : list Z) (prev : buffer)
  : list iteration :=
  flat_map (fun y => map (scan_cell width height data prev y) (steps width))
           (steps height).

(** The history buffer the scan diffs against, after
    [if (previousFrameData.length !== data.length)
       previousFrameData = new Uint8ClampedArray(data)]. *)
Definition reinit (prev : buffer) (data : list Z) : buffer :=
  if buffer_length prev =? Z.of_nat (List.length data) then prev
  else Uint8ClampedArray data.

(** One call of [draw] on the frame [data] returned by [getImageData]:
    the iterations of the scan and the state left behind, or [None]
    when [previousFrameData.set(data)] throws. *)
Definition draw (st : state) (data : list Z) : option (list iteration * state) :=
  let prev := reinit (previousFrameData st) data in
  let its := scan (canvas_width st) (canvas_height st) data prev in
  match buffer_set prev data with
  | Some prev' =>
      Some (its, {| canvas_width := canvas_width st;
                    canvas_height := canvas_height st;
                    previousFrameData := prev' |})
  | None => None
  end.

End Config.

(** [handleResize] with the window's [innerWidth] and [innerHeight]. *)
Definition handleResize (st : state) (innerWidth innerHeight : Z) : state :=
  {| canvas_width := innerWidth;
     canvas_height := innerHeight;
     previousFrameData := EmptyArray |}.

(** What [getImageData(0, 0, canvas.width, canvas.height)] returns: four
    bytes per pixel of a non-empty canvas. *)
Definition is_byte (v : Z) : Prop := 0 <= v <= 255.

Definition frame_of (width height : Z) (data : list Z) : Prop :=
  0 < width /\ 0 < height /\
  Z.of_nat (List.length data) = 4 * width * height /\
  Forall is_byte data.

(** Where the green byte of the cell of an iteration sits in a frame of
    the given width: offset [i + 1] of the scan. *)
Definition green_offset (width : Z) (it : iteration) : nat :=
  Z.to_nat ((cell_y it * width + cell_x it) * 4 + 1).

(** What an iteration put on the canvas apart from its opacity: the
    glyph, its colour and its position. *)
Definition painted (it : iteration) : option (option ascii * color * Z * Z) :=
  option_map (fun c => (text c, fillStyle c, translate_x c, translate_y c)) (call it).

(** Checking a boolean property on a whole integer interval. *)
Definition holds_below (n : Z) (f : Z -> bool) : bool :=
  forallb f (for_range (Z.to_nat n) 0 n 1).

End Core.

Module Script.
Import Number Core.

Definition fontSize : Z := 4.
Definition chars : string := " @%#*+=-:. ".
Definition motionThreshold : Z := 8.

Definition draw : state -> list Z -> option (list iteration * state) :=
  Core.draw fontSize chars motionThreshold.

End Script.

(** ** The specification's clamp *)

Module Spec.
Import Number.

(** [clamp(lo, hi, v)] as the specification uses it for the lightness:
    [lo] when [v] is at most [lo], [hi] when [v] is at least [hi], and
    [v] itself in between. *)
Definition clamp (lo hi v : number) : number :=
  if leb v lo then lo else if leb hi v then hi else v.

End Spec.

(** ** Two small frames

    An 8 x 4 canvas holds two cells, at [(0, 0)] and [(4, 0)].  [frame_a]
    is uniformly grey; [frame_b] differs from it only in the green byte
    of the first cell, by 9. *)

Module Examples.
Import Number Core.

Definition canvas_8x4 : state :=
  {| canvas_width := 8; canvas_height := 4; previousFrameData := EmptyArray |}.

Definition frame_a : list Z := repeat 100 128.

Definition frame_b : list Z := 100 :: 109 :: repeat 100 126.

(** The iteration of the scan at the first cell of the 8 x 4 canvas. *)
Definition first_cell (data : list Z) (prev : buffer) : iteration :=
  scan_cell Script.chars Script.motionThreshold 8 4 data prev 0 0.

End Examples.

(** ** The sampled pixel of a cell *)

Module Sampling.
Import Number Core.

(** Whether two numbers are the same binary64 value (sign of zero
    included). *)
Definition same_number (a b : number) : bool :=
  match a, b with
  | S754_zero s, S754_zero s' => Bool.eqb s s'
  | S754_infinity s, S754_infinity s' => Bool.eqb s s'
  | S754_nan, S754_nan => true
  | S754_finite s m e, S754_finite s' m' e' => Bool.eqb s s' && Pos.eqb m m' && Z.eqb e e'
  | _, _ => false
  end.

(** The integer [r + g + b] of the three colour bytes [draw] reads for the
    cell of an iteration: offsets [i], [i + 1] and [i + 2] of the scan. *)
Definition rgb_sum (width : Z) (data : list Z) (it : iteration) : Z :=
  let i := Z.to_nat ((cell_y it * width + cell_x it) * 4) in
  nth i data 0 + nth (i + 1) data 0 + nth (i + 2) data 0.

End Sampling.

(** ** The handlers the script registers

    The script reacts to three things: [video.onloadeddata], which calls
    [handleResize()] and then [draw()]; the window's [resize] event, which
    calls [handleResize]; and the animation frame [draw] requests for
    itself at its end.  A frame handler receives the pixels
    [getImageData] returns to it. *)

Module EventLoop.
Import Core.

Inductive event : Type :=
| loadeddata (innerWidth innerHeight : Z) (data : list Z)
| resize (innerWidth innerHeight : Z)
| animationFrame (data : list Z).

(** Running one handler: the iterations it scanned and the state it
    leaves, or [None] when it throws. *)
Definition dispatch (st : state) (ev : event) : option (list iteration * state) :=
  match ev with
  | loadeddata innerWidth innerHeight data =>
      Script.draw (handleResize st innerWidth innerHeight) data
  | resize innerWidth innerHeight =>
      Some ([], handleResize st innerWidth innerHeight)
  | animationFrame data => Script.draw st data
  end.

(** Running the handlers of a sequence of events one after the other.  A
    [draw] that throws never reaches [requestAnimationFrame(draw)]: the
    run ends there. *)
Fixpoint run (st : state) (evs : list event)
  : option (list (list iteration) * state) :=
  match evs with
  | [] => Some ([], st)
  | ev :: evs' =>
      match dispatch st ev with
      | Some (out, st') =>
          match run st' evs' with
          | Some (outs, st'') => Some (out :: outs, st'')
          | None => None
          end
      | None => None
      end
  end.

(** The frames of a sequence of events are the ones [getImageData] can
    return: each is a frame of the canvas as the resizes before it left
    it. *)
Fixpoint delivered (width height : Z) (evs : list event) : Prop :=
  match evs with
  | [] => True
  | loadeddata innerWidth innerHeight data :: evs' =>
      frame_of innerWidth innerHeight data /\ delivered innerWidth innerHeight evs'
  | resize innerWidth innerHeight :: evs' => delivered innerWidth innerHeight evs'
  | animationFrame data :: evs' => frame_of width height data /\ delivered width height evs'
  end.

(** The history buffer is the reset [[]] or a frame of the canvas. *)
Definition history_fits (st : state) : Prop :=
  match previousFrameData st with
  | EmptyArray => True
  | Uint8ClampedArray bytes => frame_of (canvas_width st) (canvas_height st) bytes
  end.

(** No green byte of [next] is further than 8 from the one of [prev]. *)
Definition slow (prev next : list Z) : Prop :=
  forall j p g,
    Z.of_nat j mod 4 = 1 ->
    nth_error prev j = Some p -> nth_error next j = Some g ->
    Z.abs (g - p) <= 8.

Fixpoint drifting (first : list Z) (rest : list (list Z)) : Prop :=
  match rest with
  | [] => True
  | next :: rest' => slow first next /\ drifting next rest'
  end.

End EventLoop.

(** ** More small frames

    [frame_c] differs from [frame_a] in the alpha byte of the first pixel
    and in the whole second pixel, none of which the scan of an 8 x 4
    canvas reads.  [drift] is a sequence of frames whose green bytes grow
    by 8 from one frame to the next. *)

Module MoreExamples.

Definition frame_c : list Z := [100; 100; 100; 7; 1; 2; 3; 4] ++ repeat 100 120.

Definition drift : list (list Z) :=
  [repeat 108 128; repeat 116 128; repeat 124 128].

End MoreExamples.

(** ** Integers inside binary64

    The script feeds bytes, lengths and small differences of integers to
    Number arithmetic.  The lemmas below show that on integers below 2^53
    the binary64 operations involved are exact: [of_Z] has a closed normal
    form, and [add], [sub], multiplication by one, [Math_floor],
    [Math_abs] and [integer_value] commute with it. *)

Module NumberFacts.
Import Number.

Lemma iter_pos_iter {A : Type} (f : A -> A) (n : positive) :
  forall x, iter_pos f n x = Pos.iter f x n.
Proof.
  induction n as [n IH|n IH|]; intros x; simpl.
  - rewrite !IH, <- !Pos.iter_swap. reflexivity.
  - rewrite !IH. reflexivity.
  - reflexivity.
Qed.

Lemma digits_iter_xO p n :
  Zpos (digits2_pos (Pos.iter xO p n)) = Zpos (digits2_pos p) + Zpos n.
Proof.
  induction n as [|n IH] using Pos.peano_ind.
  - simpl. lia.
  - rewrite Pos.iter_succ. simpl. lia.
Qed.

Lemma digits_lsl p k :
  0 <= k -> Zpos (digits2_pos (lsl p k)) = Zpos (digits2_pos p) + k.
Proof.
  destruct k as [|d|d]; intros H; simpl; try lia. apply digits_iter_xO.
Qed.

Lemma lsl_lsl p a b : 0 <= a -> 0 <= b -> lsl (lsl p a) b = lsl p (a + b).
Proof.
  destruct a as [|a|a], b as [|b|b]; intros Ha Hb; try lia; simpl; try reflexivity.
  rewrite Pos.add_comm. symmetry. apply Pos.iter_add.
Qed.

Lemma Zpos_lsl p k : 0 <= k -> Zpos (lsl p k) = Zpos p * 2 ^ k.
Proof.
  destruct k as [|d|d]; intros H; try lia.
  - simpl. lia.
  - unfold lsl. induction d as [|d IH] using Pos.peano_ind.
    + simpl. lia.
    + rewrite Pos.iter_succ, Pos2Z.inj_xO, IH by lia.
      rewrite Pos2Z.inj_succ, Z.pow_succ_r by lia. lia.
Qed.

(** Shifting right the [n] zero bits a left shift by [n] created loses
    nothing: the round and sticky bits stay clear. *)
Lemma shr_1_iter q n :
  Pos.iter shr_1 (Build_shr_record (Zpos (Pos.iter xO q n)) false false) n
  = Build_shr_record (Zpos q) false false.
Proof.
  revert q. induction n as [|n IH] using Pos.peano_ind; intros q.
  - reflexivity.
  - rewrite Pos.iter_succ_r, Pos.iter_succ. simpl. apply IH.
Qed.

(** Rounding a normal mantissa that carries [t] extra zero bits returns
    the mantissa. *)
Lemma round_aux_exact s q e t :
  Zpos (digits2_pos q) = prec -> -1074 <= e <= 971 -> 0 <= t ->
  binary_round_aux prec emax s (Zpos (lsl q t)) (e - t) loc_Exact = S754_finite s q e.
Proof.
  intros Hd He Ht.
  assert (Hstay : shr_fexp prec emax (Zpos q) e loc_Exact
                  = (Build_shr_record (Zpos q) false false, e)).
  { unfold shr_fexp, Zdigits2, fexp, emin. rewrite Hd.
    replace (Z.max (prec + e - prec) (3 - emax - prec) - e) with 0
      by (unfold prec, emax; lia).
    reflexivity. }
  assert (Hback : shr_fexp prec emax (Zpos (lsl q t)) (e - t) loc_Exact
                  = (Build_shr_record (Zpos q) false false, e)).
  { unfold shr_fexp, Zdigits2, fexp, emin. rewrite digits_lsl, Hd by assumption.
    replace (Z.max (prec + t + (e - t) - prec) (3 - emax - prec) - (e - t)) with t
      by (unfold prec, emax; lia).
    destruct t as [|d|d]; try lia.
    - simpl. rewrite Z.sub_0_r. reflexivity.
    - unfold shr, shr_record_of_loc, lsl. rewrite iter_pos_iter, shr_1_iter.
      f_equal. lia. }
  unfold binary_round_aux. rewrite Hback. simpl shr_m. simpl loc_of_shr_record.
  simpl round_nearest_even. rewrite Hstay. simpl shr_m.
  replace (e <=? emax - prec) with true; [reflexivity|].
  symmetry. apply Z.leb_le. unfold prec, emax. lia.
Qed.

(** [binary_round] does not depend on how many trailing zero bits the
    representation of an integer below 2^53 carries. *)
Lemma binary_round_exact s p k :
  Zpos (digits2_pos p) <= prec -> 0 <= k <= 1000 ->
  binary_round prec emax s (lsl p k) (- k) = canon s p.
Proof.
  intros Hd Hk. set (d := Zpos (digits2_pos p)) in *.
  assert (Hd1 : 1 <= d) by (unfold d; lia).
  assert (Hfull : Zpos (digits2_pos (lsl p (prec - d))) = prec)
    by (rewrite digits_lsl by lia; fold d; lia).
  unfold binary_round. rewrite digits_lsl by lia. fold d.
  unfold fexp, emin.
  replace (Z.max (d + k + - k - prec) (3 - emax - prec)) with (d - prec)
    by (unfold prec, emax in *; lia).
  unfold shl_align, canon. fold d.
  destruct (d - prec - - k) as [|g|g] eqn:Hg.
  - replace (- k) with ((d - prec) - 0) by lia.
    replace (lsl p k) with (lsl (lsl p (prec - d)) 0).
    2:{ change (lsl (lsl p (prec - d)) 0) with (lsl p (prec - d)). f_equal. lia. }
    apply round_aux_exact; solve [exact Hfull | unfold prec in *; lia].
  - replace (- k) with ((d - prec) - Zpos g) by lia.
    replace (lsl p k) with (lsl (lsl p (prec - d)) (Zpos g)).
    2:{ rewrite lsl_lsl by lia. f_equal. lia. }
    apply round_aux_exact; solve [exact Hfull | unfold prec in *; lia].
  - change (Pos.iter xO (lsl p k) g) with (lsl (lsl p k) (Zpos g)).
    rewrite lsl_lsl by lia.
    replace (k + Zpos g) with (prec - d) by lia.
    replace (d - prec) with ((d - prec) - 0) at 1 by lia.
    change (lsl p (prec - d)) with (lsl (lsl p (prec - d)) 0) at 1.
    apply round_aux_exact; solve [exact Hfull | unfold prec in *; lia].
Qed.

Lemma digits_lower p : 2 ^ (Zpos (digits2_pos p) - 1) <= Zpos p.
Proof.
  induction p as [p IH|p IH|]; simpl digits2_pos.
  - rewrite Pos2Z.inj_succ.
    replace (Z.succ (Zpos (digits2_pos p)) - 1) with (Z.succ (Zpos (digits2_pos p) - 1)) by lia.
    rewrite Z.pow_succ_r by lia. lia.
  - rewrite Pos2Z.inj_succ.
    replace (Z.succ (Zpos (digits2_pos p)) - 1) with (Z.succ (Zpos (digits2_pos p) - 1)) by lia.
    rewrite Z.pow_succ_r by lia. lia.
  - simpl. lia.
Qed.

Lemma digits_le_prec p : Zpos p < 2 ^ prec -> Zpos (digits2_pos p) <= prec.
Proof.
  intros H. pose proof (digits_lower p) as L.
  destruct (Z_le_gt_dec (Zpos (digits2_pos p)) prec) as [|G]; [assumption|exfalso].
  assert (2 ^ prec <= 2 ^ (Zpos (digits2_pos p) - 1))
    by (apply Z.pow_le_mono_r; unfold prec in *; lia).
  lia.
Qed.

Lemma of_Z_pos p : Zpos p < 2 ^ prec -> of_Z (Zpos p) = canon false p.
Proof.
  intros H. unfold of_Z, binary_normalize.
  change p with (lsl p 0) at 1. change 0 with (- 0) at 2.
  apply binary_round_exact; [apply digits_le_prec; assumption | lia].
Qed.

Lemma of_Z_neg p : Zpos p < 2 ^ prec -> of_Z (Zneg p) = canon true p.
Proof.
  intros H. unfold of_Z, binary_normalize.
  change p with (lsl p 0) at 1. change 0 with (- 0) at 2.
  apply binary_round_exact; [apply digits_le_prec; assumption | lia].
Qed.

Lemma of_Z_canon s p :
  Zpos p < 2 ^ prec -> canon s p = of_Z (cond_Zopp s (Zpos p)).
Proof.
  intros H. destruct s; symmetry; [apply of_Z_neg | apply of_Z_pos]; exact H.
Qed.

Lemma of_Z_finite z :
  exact_int z -> z <> 0 ->
  exists s p, of_Z z = canon s p /\ z = cond_Zopp s (Zpos p) /\ Zpos p < 2 ^ prec.
Proof.
  unfold exact_int. intros Hz Hnz. destruct z as [|p|p]; [congruence| |].
  - exists false, p. rewrite of_Z_pos by exact Hz. auto.
  - exists true, p. rewrite of_Z_neg by exact Hz. auto.
Qed.

Lemma normalize_scaled z k :
  exact_int z -> 0 <= k <= 1000 ->
  binary_normalize prec emax (z * 2 ^ k) (- k) false = of_Z z.
Proof.
  unfold exact_int. intros Hz Hk. destruct z as [|p|p].
  - reflexivity.
  - rewrite of_Z_pos by exact Hz. rewrite <- Zpos_lsl by lia.
    apply binary_round_exact; [apply digits_le_prec; exact Hz | exact Hk].
  - rewrite of_Z_neg by exact Hz.
    replace (Zneg p * 2 ^ k) with (Z.opp (Zpos (lsl p k))) by (rewrite Zpos_lsl; lia).
    apply binary_round_exact; [apply digits_le_prec; exact Hz | exact Hk].
Qed.

Lemma shl_align_fst m e e' : e' <= e -> fst (shl_align m e e') = lsl m (e - e').
Proof.
  intros H. unfold shl_align.
  destruct (e' - e) as [|d|d] eqn:E; try lia.
  - replace (e - e') with 0 by lia. reflexivity.
  - replace (e - e') with (Zpos d) by lia. reflexivity.
Qed.

(** The mantissa of [canon s p] aligned at exponent [e'] is the integer
    scaled by [2 ^ (- e')]. *)
Lemma aligned_value s p e' :
  Zpos (digits2_pos p) <= prec -> e' <= Zpos (digits2_pos p) - prec ->
  cond_Zopp s (Zpos (fst (shl_align (lsl p (prec - Zpos (digits2_pos p)))
                                    (Zpos (digits2_pos p) - prec) e')))
  = cond_Zopp s (Zpos p) * 2 ^ (- e').
Proof.
  intros Hd He. rewrite shl_align_fst by assumption.
  rewrite lsl_lsl by lia. rewrite Zpos_lsl by lia.
  replace (prec - Zpos (digits2_pos p) + (Zpos (digits2_pos p) - prec - e')) with (- e') by lia.
  destruct s; unfold cond_Zopp; lia.
Qed.

Lemma add_canon sa pa sb pb :
  Zpos pa < 2 ^ prec -> Zpos pb < 2 ^ prec ->
  exact_int (cond_Zopp sa (Zpos pa) + cond_Zopp sb (Zpos pb)) ->
  add (canon sa pa) (canon sb pb)
  = of_Z (cond_Zopp sa (Zpos pa) + cond_Zopp sb (Zpos pb)).
Proof.
  intros Ha Hb Hab.
  pose proof (digits_le_prec _ Ha) as Da. pose proof (digits_le_prec _ Hb) as Db.
  unfold add, canon, SFadd.
  set (ez := Z.min (Zpos (digits2_pos pa) - prec) (Zpos (digits2_pos pb) - prec)).
  rewrite !aligned_value by (unfold ez; lia).
  rewrite <- Z.mul_add_distr_r.
  remember (- ez) as k eqn:Hk. replace ez with (- k) by lia.
  apply normalize_scaled; [assumption | unfold ez, prec in *; lia].
Qed.

Lemma sub_canon sa pa sb pb :
  Zpos pa < 2 ^ prec -> Zpos pb < 2 ^ prec ->
  exact_int (cond_Zopp sa (Zpos pa) - cond_Zopp sb (Zpos pb)) ->
  sub (canon sa pa) (canon sb pb)
  = of_Z (cond_Zopp sa (Zpos pa) - cond_Zopp sb (Zpos pb)).
Proof.
  intros Ha Hb Hab.
  pose proof (digits_le_prec _ Ha) as Da. pose proof (digits_le_prec _ Hb) as Db.
  unfold sub, canon, SFsub.
  set (ez := Z.min (Zpos (digits2_pos pa) - prec) (Zpos (digits2_pos pb) - prec)).
  rewrite !aligned_value by (unfold ez; lia).
  rewrite <- Z.mul_sub_distr_r.
  remember (- ez) as k eqn:Hk. replace ez with (- k) by lia.
  apply normalize_scaled; [assumption | unfold ez, prec in *; lia].
Qed.

(** Addition of integers is exact. *)
Lemma add_of_Z a b :
  exact_int a -> exact_int b -> exact_int (a + b) ->
  add (of_Z a) (of_Z b) = of_Z (a + b).
Proof.
  intros Ha Hb Hab.
  destruct (Z.eq_dec a 0) as [->|Na].
  { rewrite Z.add_0_l. destruct (Z.eq_dec b 0) as [->|Nb]; [reflexivity|].
    destruct (of_Z_finite b Hb Nb) as (s & p & -> & _). reflexivity. }
  destruct (Z.eq_dec b 0) as [->|Nb].
  { rewrite Z.add_0_r. destruct (of_Z_finite a Ha Na) as (s & p & -> & _). reflexivity. }
  destruct (of_Z_finite a Ha Na) as (sa & pa & Ea & -> & Pa).
  destruct (of_Z_finite b Hb Nb) as (sb & pb & Eb & -> & Pb).
  rewrite Ea, Eb. apply add_canon; assumption.
Qed.

(** Subtraction of integers is exact. *)
Lemma sub_of_Z a b :
  exact_int a -> exact_int b -> exact_int (a - b) ->
  sub (of_Z a) (of_Z b) = of_Z (a - b).
Proof.
  intros Ha Hb Hab.
  destruct (Z.eq_dec b 0) as [->|Nb].
  { rewrite Z.sub_0_r. destruct (Z.eq_dec a 0) as [->|Na]; [reflexivity|].
    destruct (of_Z_finite a Ha Na) as (s & p & -> & _). reflexivity. }
  destruct (of_Z_finite b Hb Nb) as (sb & pb & Eb & Vb & Pb).
  destruct (Z.eq_dec a 0) as [->|Na].
  { rewrite Eb. subst b. rewrite Z.sub_0_l.
    replace (- cond_Zopp sb (Zpos pb)) with (cond_Zopp (negb sb) (Zpos pb))
      by (destruct sb; reflexivity).
    rewrite <- of_Z_canon by exact Pb. reflexivity. }
  destruct (of_Z_finite a Ha Na) as (sa & pa & Ea & -> & Pa).
  subst b. rewrite Ea, Eb. apply sub_canon; assumption.
Qed.

(** The two literals of the script are the numbers they are written as:
    [1.0] is the integer one and [0.3] the correctly rounded quotient
    3 / 10. *)
Lemma lit_1_0_value : lit_1_0 = of_Z 1.
Proof. vm_compute. reflexivity. Qed.

Lemma lit_0_3_value : lit_0_3 = div (of_Z 3) (of_Z 10).
Proof. vm_compute. reflexivity. Qed.

(** [1.0 * n = n] for a non-zero integer [n]. *)
Lemma mul_one_of_Z n :
  exact_int n -> mul lit_1_0 (of_Z n) = of_Z n.
Proof.
  intros Hn. destruct (Z.eq_dec n 0) as [->|Nn]; [reflexivity|].
  destruct (of_Z_finite n Hn Nn) as (s & p & E & _ & Hp). rewrite E.
  pose proof (digits_le_prec _ Hp) as Hd.
  unfold mul, lit_1_0, canon, SFmul.
  set (d := Zpos (digits2_pos p)) in *.
  change (Pos.mul 4503599627370496 (lsl p (prec - d))) with (lsl (lsl p (prec - d)) 52).
  replace (-52 + (d - prec)) with ((d - prec) - 52) by lia.
  change (xorb false s) with s.
  apply round_aux_exact; try (unfold prec in *; lia).
  rewrite digits_lsl by lia. fold d. lia.
Qed.

Lemma mul_zero_of_Z n :
  exact_int n -> 0 < n -> mul (S754_zero false) (of_Z n) = S754_zero false.
Proof.
  intros Hn Pn. destruct (of_Z_finite n Hn) as (s & p & E & V & _); [lia|].
  rewrite E. destruct s; [unfold cond_Zopp in V; lia | reflexivity].
Qed.

Lemma div_lsl p k : 0 <= k -> Zpos (lsl p k) / 2 ^ k = Zpos p.
Proof. intros H. rewrite Zpos_lsl by assumption. apply Z.div_mul. lia. Qed.

Lemma mod_lsl p k : 0 <= k -> Zpos (lsl p k) mod 2 ^ k = 0.
Proof. intros H. rewrite Zpos_lsl by assumption. apply Z.mod_mul. lia. Qed.

(** An integer is its own floor. *)
Lemma floor_of_Z n : exact_int n -> Math_floor (of_Z n) = of_Z n.
Proof.
  intros Hn. destruct (Z.eq_dec n 0) as [->|Nn]; [reflexivity|].
  destruct (of_Z_finite n Hn Nn) as (s & p & E & V & Hp). rewrite E.
  pose proof (digits_le_prec _ Hp) as Hd.
  unfold canon, Math_floor.
  destruct (Zpos (digits2_pos p) - prec) as [|e|e] eqn:He; try reflexivity.
  replace (prec - Zpos (digits2_pos p)) with (Zpos e) by lia.
  replace (cond_Zopp s (Zpos (lsl p (Zpos e))) / 2 ^ Zpos e) with n.
  - rewrite E. unfold canon. rewrite He.
    replace (prec - Zpos (digits2_pos p)) with (Zpos e) by lia. reflexivity.
  - subst n. rewrite Zpos_lsl by lia. destruct s; unfold cond_Zopp.
    + rewrite <- Z.mul_opp_l. symmetry. apply Z.div_mul. lia.
    + symmetry. apply Z.div_mul. lia.
Qed.

(** [of_Z n] denotes [n]. *)
Lemma integer_value_of_Z n : exact_int n -> integer_value (of_Z n) = Some n.
Proof.
  intros Hn. destruct (Z.eq_dec n 0) as [->|Nn]; [reflexivity|].
  destruct (of_Z_finite n Hn Nn) as (s & p & E & V & Hp). rewrite E.
  pose proof (digits_le_prec _ Hp) as Hd.
  unfold canon, integer_value.
  destruct (Zpos (digits2_pos p) - prec) as [|e|e] eqn:He; try lia.
  - replace (prec - Zpos (digits2_pos p)) with 0 by lia.
    change (lsl p 0) with p. rewrite Z.pow_0_r, Z.mul_1_r. congruence.
  - replace (prec - Zpos (digits2_pos p)) with (Zpos e) by lia.
    rewrite mod_lsl, div_lsl by lia. simpl. congruence.
Qed.

Lemma abs_of_Z n : exact_int n -> Math_abs (of_Z n) = of_Z (Z.abs n).
Proof.
  intros Hn. destruct n as [|p|p]; [reflexivity| |].
  - simpl Z.abs. rewrite of_Z_pos by exact Hn. reflexivity.
  - simpl Z.abs. rewrite of_Z_neg, of_Z_pos by exact Hn. reflexivity.
Qed.

(** *** Comparisons *)

Lemma SFcompare_antisym a b :
  SFcompare b a = option_map CompOpp (SFcompare a b).
Proof.
  destruct a as [sa|sa| |sa ma ea], b as [sb|sb| |sb mb eb]; cbn [SFcompare option_map];
    try reflexivity; try (destruct sa; reflexivity); try (destruct sb; reflexivity);
    try (destruct sa, sb; reflexivity).
  destruct sa, sb; cbn [CompOpp]; try reflexivity;
    rewrite (Z.compare_antisym ea eb); destruct (ea ?= eb); cbn [CompOpp]; try reflexivity;
    rewrite (Pos.compare_cont_antisym ma mb Eq); cbn [CompOpp];
    destruct (Pos.compare_cont Eq ma mb); reflexivity.
Qed.

Lemma leb_not_ltb a b : leb a b = true -> ltb b a = false.
Proof.
  unfold leb, ltb, SFleb, SFltb. rewrite (SFcompare_antisym a b).
  destruct (SFcompare a b) as [[]|]; cbn [option_map CompOpp]; congruence.
Qed.

Lemma SFcompare_None a b : SFcompare a b = None -> a = S754_nan \/ b = S754_nan.
Proof.
  destruct a as [sa|sa| |sa ma ea], b as [sb|sb| |sb mb eb]; cbn [SFcompare];
    intros H; try discriminate H; auto.
Qed.

Lemma not_leb_ltb a b :
  leb a b = false -> a <> S754_nan -> b <> S754_nan -> ltb b a = true.
Proof.
  unfold leb, ltb, SFleb, SFltb. intros H Ha Hb. rewrite (SFcompare_antisym a b).
  destruct (SFcompare a b) as [[]|] eqn:E; cbn [option_map CompOpp]; try congruence.
  destruct (SFcompare_None _ _ E); congruence.
Qed.

Lemma leb_nan_l b : leb S754_nan b = false.
Proof. reflexivity. Qed.

Lemma leb_nan_r a : leb a S754_nan = false.
Proof. destruct a; reflexivity. Qed.

(** [Math.min] and [Math.max] against a finite bound. *)
Lemma Math_min_finite s m e v :
  v <> S754_nan ->
  Math_min (S754_finite s m e) v = if ltb v (S754_finite s m e) then v else S754_finite s m e.
Proof. destruct v; intros H; try reflexivity. congruence. Qed.

Lemma Math_max_finite s m e v :
  v <> S754_nan ->
  Math_max (S754_finite s m e) v = if ltb (S754_finite s m e) v then v else S754_finite s m e.
Proof. destruct v; intros H; try reflexivity. congruence. Qed.

Lemma exact_int_range n : 0 <= n < 2 ^ 53 -> exact_int n.
Proof. unfold exact_int, prec. lia. Qed.

End NumberFacts.

(** ** Facts about the script *)

Module CoreFacts.
Import Number Core NumberFacts.

(** *** The loops *)

(** With a positive step and [stop - i] units of fuel the loop runs to
    its exit test: it visits exactly the values [i, i + step, ...] below
    [stop]. *)
Lemma for_range_spec step (Hstep : 0 < step) fuel :
  forall i stop, stop - i <= Z.of_nat fuel ->
  forall v, In v (for_range fuel i stop step)
            <-> (i <= v < stop /\ (v - i) mod step = 0).
Proof.
  induction fuel as [|fuel IH]; intros i stop Hfuel v; simpl.
  - split; [tauto | lia].
  - destruct (Z.ltb_spec i stop) as [Hlt|Hge]; simpl.
    + rewrite IH by lia. split.
      * intros [<-|[Hr Hm]].
        -- rewrite Z.sub_diag, Z.mod_0_l by lia. lia.
        -- split; [lia|].
           replace (v - i) with ((v - (i + step)) + 1 * step) by lia.
           rewrite Z.mod_add by lia. exact Hm.
      * intros [Hr Hm]. destruct (Z.eq_dec i v) as [->|Hne]; [now left|right].
        assert (Hs : step <= v - i).
        { destruct (Z_lt_le_dec (v - i) step) as [Hsmall|]; [|assumption].
          rewrite Z.mod_small in Hm by lia. lia. }
        split; [lia|].
        replace (v - (i + step)) with ((v - i) + (-1) * step) by lia.
        rewrite Z.mod_add by lia. exact Hm.
    + split; [tauto | lia].
Qed.

Lemma In_steps fontSize (Hf : 0 < fontSize) stop v :
  In v (steps fontSize stop) <-> (0 <= v < stop /\ v mod fontSize = 0).
Proof.
  unfold steps. rewrite for_range_spec by lia. rewrite Z.sub_0_r. tauto.
Qed.

Lemma holds_below_spec n f :
  holds_below n f = true -> forall v, 0 <= v < n -> f v = true.
Proof.
  unfold holds_below. rewrite forallb_forall. intros H v Hv. apply H.
  apply for_range_spec; [lia | lia |]. rewrite Z.mod_1_r. lia.
Qed.

Lemma In_scan fontSize chars motionThreshold width height data prev it :
  In it (scan fontSize chars motionThreshold width height data prev) <->
  exists y x, In y (steps fontSize height) /\ In x (steps fontSize width) /\
              it = scan_cell chars motionThreshold width height data prev y x.
Proof.
  unfold scan. rewrite in_flat_map. split.
  - intros (y & Hy & Hin). apply in_map_iff in Hin. destruct Hin as (x & <- & Hx).
    exists y, x. auto.
  - intros (y & x & Hy & Hx & ->). exists y. split; [assumption|].
    apply in_map. assumption.
Qed.

(** *** Frames *)

Lemma elem_Some a i v :
  0 <= i -> nth_error a (Z.to_nat i) = Some v -> elem a i = of_Z v.
Proof.
  intros Hi Hn. unfold elem. destruct (Z.ltb_spec i 0); [lia|]. rewrite Hn. reflexivity.
Qed.

Lemma frame_byte width height data i :
  frame_of width height data -> 0 <= i < 4 * width * height ->
  exists v, nth_error data (Z.to_nat i) = Some v /\ is_byte v.
Proof.
  intros (Hw & Hh & Hlen & Hb) Hi.
  destruct (nth_error data (Z.to_nat i)) as [v|] eqn:E.
  - exists v. split; [reflexivity|].
    rewrite Forall_forall in Hb. apply Hb. eapply nth_error_In. exact E.
  - apply nth_error_None in E. lia.
Qed.

(** The pixel offset of a cell of the grid lies inside the frame. *)
Lemma cell_offset width height x y :
  0 <= x < width -> 0 <= y < height ->
  0 <= (y * width + x) * 4 /\ (y * width + x) * 4 + 3 < 4 * width * height.
Proof. intros Hx Hy. nia. Qed.

(** In a frame, [avg] of a cell is the rounded third of the integer sum
    of its three colour bytes. *)
Lemma pixel_avg_frame width height data x y :
  frame_of width height data -> 0 <= x < width -> 0 <= y < height ->
  exists r g b,
    nth_error data (Z.to_nat ((y * width + x) * 4)) = Some r /\
    nth_error data (Z.to_nat ((y * width + x) * 4 + 1)) = Some g /\
    nth_error data (Z.to_nat ((y * width + x) * 4 + 2)) = Some b /\
    is_byte r /\ is_byte g /\ is_byte b /\
    pixel_avg data ((y * width + x) * 4) = div (of_Z (r + g + b)) (of_Z 3).
Proof.
  intros Hf Hx Hy. destruct (cell_offset width height x y Hx Hy) as [H0 H3].
  set (i := (y * width + x) * 4) in *.
  destruct (frame_byte _ _ _ i Hf) as (r & Er & Br); [lia|].
  destruct (frame_byte _ _ _ (i + 1) Hf) as (g & Eg & Bg); [lia|].
  destruct (frame_byte _ _ _ (i + 2) Hf) as (b & Eb & Bb); [lia|].
  exists r, g, b. repeat (split; [assumption|]).
  unfold pixel_avg.
  rewrite (elem_Some data i r), (elem_Some data (i + 1) g), (elem_Some data (i + 2) b)
    by (assumption || lia).
  assert (exact_int r /\ exact_int g /\ exact_int b /\ exact_int (r + g) /\ exact_int (r + g + b))
    as (Xr & Xg & Xb & Xrg & Xrgb).
  { unfold is_byte, exact_int, prec in *. change (2 ^ 53) with 9007199254740992. lia. }
  rewrite add_of_Z, add_of_Z by assumption. reflexivity.
Qed.

(** *** The history buffer *)

Lemma reinit_length prev data :
  buffer_length (reinit prev data) = Z.of_nat (List.length data).
Proof.
  unfold reinit. destruct (Z.eqb_spec (buffer_length prev) (Z.of_nat (List.length data)));
    [assumption | reflexivity].
Qed.

(** Once the lengths agree, [set] replaces the whole history. *)
Lemma buffer_set_reinit prev data :
  data <> [] -> buffer_set (reinit prev data) data = Some (Uint8ClampedArray data).
Proof.
  intros Hne. pose proof (reinit_length prev data) as L.
  destruct (reinit prev data) as [|bytes]; simpl in *.
  - destruct data; [congruence | simpl in L; lia].
  - apply Nat2Z.inj in L. rewrite <- L, Nat.leb_refl, skipn_all, app_nil_r. reflexivity.
Qed.

Lemma frame_nonempty width height data : frame_of width height data -> data <> [].
Proof.
  intros (Hw & Hh & Hlen & _) ->. change (Z.of_nat (List.length (@nil Z))) with 0 in Hlen.
  assert (0 < width * height) by (apply Z.mul_pos_pos; assumption). lia.
Qed.

Lemma draw_frame fontSize chars motionThreshold st data :
  data <> [] ->
  draw fontSize chars motionThreshold st data
  = Some (scan fontSize chars motionThreshold (canvas_width st) (canvas_height st) data
               (reinit (previousFrameData st) data),
          {| canvas_width := canvas_width st;
             canvas_height := canvas_height st;
             previousFrameData := Uint8ClampedArray data |}).
Proof.
  intros Hne. unfold draw. rewrite buffer_set_reinit by assumption. reflexivity.
Qed.

(** *** Bytes against the thresholds of the script *)

(** The average of three bytes against the suppression floor. *)
Lemma avg_floor s :
  0 <= s <= 765 ->
  gtb (div (of_Z s) (of_Z 3)) (of_Z 15) = (45 <? s)
  /\ leb (div (of_Z s) (of_Z 3)) (of_Z 15) = (s <=? 45).
Proof.
  intros Hs.
  pose proof (holds_below_spec 766
    (fun s => Bool.eqb (gtb (div (of_Z s) (of_Z 3)) (of_Z 15)) (45 <? s)
              && Bool.eqb (leb (div (of_Z s) (of_Z 3)) (of_Z 15)) (s <=? 45))) as H.
  specialize (H ltac:(vm_compute; reflexivity) s ltac:(lia)).
  apply andb_true_iff in H. destruct H as [H1 H2].
  apply eqb_prop in H1, H2. auto.
Qed.

Lemma byte_sum r g b : is_byte r -> is_byte g -> is_byte b -> 0 <= r + g + b <= 765.
Proof. unfold is_byte. lia. Qed.

Lemma fontSize_pos : 0 < Script.fontSize.
Proof. reflexivity. Qed.

(** An integer difference of two bytes against the motion threshold. *)
Lemma diff_threshold n :
  0 <= n <= 255 -> gtb (of_Z n) (of_Z Script.motionThreshold) = (Script.motionThreshold <? n).
Proof.
  intros Hn.
  pose proof (holds_below_spec 256
    (fun n => Bool.eqb (gtb (of_Z n) (of_Z Script.motionThreshold))
                       (Script.motionThreshold <? n))) as H.
  specialize (H ltac:(vm_compute; reflexivity) n ltac:(lia)).
  apply eqb_prop in H. exact H.
Qed.

(** [isMoving] on bytes is the integer test [|g - prevG| > 8]. *)
Lemma pixel_isMoving_bytes data hist i g prevG :
  0 <= i ->
  nth_error data (Z.to_nat (i + 1)) = Some g ->
  nth_error hist (Z.to_nat (i + 1)) = Some prevG ->
  is_byte g -> is_byte prevG ->
  pixel_isMoving Script.motionThreshold data (Uint8ClampedArray hist) i
  = (Script.motionThreshold <? Z.abs (g - prevG)).
Proof.
  intros Hi Eg Ep Bg Bp. unfold pixel_isMoving, buffer_elem.
  rewrite (elem_Some data (i + 1) g), (elem_Some hist (i + 1) prevG) by (assumption || lia).
  assert (exact_int g /\ exact_int prevG /\ exact_int (g - prevG)) as (Xg & Xp & Xd).
  { unfold is_byte, exact_int, prec in *. change (2 ^ 53) with 9007199254740992. lia. }
  rewrite sub_of_Z, abs_of_Z by assumption.
  apply diff_threshold. unfold is_byte in *. lia.
Qed.

(** Every iteration of the scan of a frame is at a cell inside the frame. *)
Lemma scan_cells chars motionThreshold width height data prev it :
  In it (scan Script.fontSize chars motionThreshold width height data prev) ->
  0 <= cell_x it < width /\ 0 <= cell_y it < height /\
  it = scan_cell chars motionThreshold width height data prev (cell_y it) (cell_x it).
Proof.
  intros H. apply In_scan in H. destruct H as (y & x & Hy & Hx & ->).
  apply (In_steps _ fontSize_pos) in Hy, Hx. cbn [cell_x cell_y]. intuition.
Qed.

Lemma scan_visits chars motionThreshold width height data prev x y :
  0 <= x < width -> 0 <= y < height ->
  x mod Script.fontSize = 0 -> y mod Script.fontSize = 0 ->
  In (scan_cell chars motionThreshold width height data prev y x)
     (scan Script.fontSize chars motionThreshold width height data prev).
Proof.
  intros Hx Hy Mx My. apply In_scan. exists y, x.
  repeat split; try (apply (In_steps _ fontSize_pos); split; assumption).
Qed.

(** [isMoving] of every iteration of a scan of [data] against the
    history [hist], both frames of the same canvas. *)
Lemma scan_isMoving chars width height data hist it :
  frame_of width height data -> frame_of width height hist ->
  In it (scan Script.fontSize chars Script.motionThreshold width height data
              (Uint8ClampedArray hist)) ->
  exists g prevG,
    nth_error data (green_offset width it) = Some g /\
    nth_error hist (green_offset width it) = Some prevG /\
    isMoving it = (Script.motionThreshold <? Z.abs (g - prevG)).
Proof.
  intros Hd Hh Hin. destruct (scan_cells _ _ _ _ _ _ _ Hin) as (Hx & Hy & E).
  destruct (cell_offset width height _ _ Hx Hy) as [H0 H3].
  unfold green_offset. set (i := (cell_y it * width + cell_x it) * 4) in *.
  destruct (frame_byte _ _ _ (i + 1) Hd) as (g & Eg & Bg); [lia|].
  destruct (frame_byte _ _ _ (i + 1) Hh) as (p & Ep & Bp); [lia|].
  exists g, p. split; [exact Eg|]. split; [exact Ep|].
  rewrite E. cbn [isMoving cell_x cell_y]. fold i.
  apply pixel_isMoving_bytes; assumption.
Qed.

(** Distinct cells of a frame have distinct green offsets. *)
Lemma green_offset_inj width height it x0 y0 :
  0 <= cell_x it < width -> 0 <= cell_y it < height ->
  0 <= x0 < width -> 0 <= y0 < height ->
  green_offset width it = Z.to_nat ((y0 * width + x0) * 4 + 1) ->
  cell_x it = x0 /\ cell_y it = y0.
Proof.
  unfold green_offset. intros Hx Hy Hx0 Hy0 E.
  assert (E' : cell_y it * width + cell_x it = y0 * width + x0) by nia.
  assert (cell_y it = y0) by nia. subst y0. lia.
Qed.

(** *** One tick, then the next *)

(** A tick leaves the frame it drew as the history, and a following tick
    on a frame of the same length diffs against it. *)
Lemma tick_then_tick st data :
  data <> [] ->
  exists out st',
    Script.draw st data = Some (out, st')
    /\ out = scan Script.fontSize Script.chars Script.motionThreshold
                  (canvas_width st) (canvas_height st) data
                  (reinit (previousFrameData st) data)
    /\ st' = {| canvas_width := canvas_width st;
                canvas_height := canvas_height st;
                previousFrameData := Uint8ClampedArray data |}
    /\ forall data',
        data' <> [] -> List.length data' = List.length data ->
        Script.draw st' data'
        = Some (scan Script.fontSize Script.chars Script.motionThreshold
                     (canvas_width st) (canvas_height st) data' (Uint8ClampedArray data),
                {| canvas_width := canvas_width st;
                   canvas_height := canvas_height st;
                   previousFrameData := Uint8ClampedArray data' |}).
Proof.
  intros Hne. unfold Script.draw. rewrite draw_frame by exact Hne.
  eexists. eexists. split; [reflexivity|]. split; [reflexivity|]. split; [reflexivity|].
  intros data' Hne' Hlen. rewrite draw_frame by exact Hne'.
  cbn [previousFrameData canvas_width canvas_height]. unfold reinit.
  cbn [buffer_length]. rewrite Hlen, Z.eqb_refl. reflexivity.
Qed.

(** The iterations a tick on a frame returns are the scan cells of the
    frame, diffed against the re-initialised history. *)
Lemma draw_iterations st data out st' it :
  frame_of (canvas_width st) (canvas_height st) data ->
  Script.draw st data = Some (out, st') -> In it out ->
  0 <= cell_x it < canvas_width st /\ 0 <= cell_y it < canvas_height st /\
  it = scan_cell Script.chars Script.motionThreshold (canvas_width st) (canvas_height st)
                 data (reinit (previousFrameData st) data) (cell_y it) (cell_x it).
Proof.
  intros Hf Hd Hin. unfold Script.draw in Hd.
  rewrite draw_frame in Hd by (eapply frame_nonempty; exact Hf).
  injection Hd as <- _. apply scan_cells. exact Hin.
Qed.

(** Whenever a tick returns, its iterations are the scan of the frame. *)
Lemma draw_Some st data out st' :
  Script.draw st data = Some (out, st') ->
  out = scan Script.fontSize Script.chars Script.motionThreshold
             (canvas_width st) (canvas_height st) data
             (reinit (previousFrameData st) data).
Proof.
  unfold Script.draw, draw.
  destruct (buffer_set (reinit (previousFrameData st) data) data); [|discriminate].
  intros [= <- _]. reflexivity.
Qed.

(** Mapping a function over the scan. *)
Lemma map_scan {B : Type} (f : iteration -> B) fontSize chars motionThreshold
      width height data prev :
  map f (scan fontSize chars motionThreshold width height data prev)
  = flat_map (fun y => map (fun x => f (scan_cell chars motionThreshold width height
                                                   data prev y x))
                           (steps fontSize width))
             (steps fontSize height).
Proof.
  unfold scan. induction (steps fontSize height) as [|y ys IH]; [reflexivity|].
  cbn [flat_map]. rewrite map_app, IH, map_map. reflexivity.
Qed.

(** What a cell paints, opacity apart, does not depend on the history. *)
Lemma painted_cell chars motionThreshold width height data prev prev' y x :
  painted (scan_cell chars motionThreshold width height data prev y x)
  = painted (scan_cell chars motionThreshold width height data prev' y x).
Proof.
  unfold painted, scan_cell. cbn [call].
  destruct (gtb (pixel_avg data ((y * width + x) * 4)) (of_Z 15)); reflexivity.
Qed.

Lemma painted_scan fontSize chars motionThreshold width height data prev prev' :
  map painted (scan fontSize chars motionThreshold width height data prev)
  = map painted (scan fontSize chars motionThreshold width height data prev').
Proof.
  rewrite !map_scan. apply flat_map_ext. intros y. apply map_ext. intros x.
  apply painted_cell.
Qed.

(** *** Lightness *)

Lemma of_Z_30 : of_Z 30 = S754_finite false 8444249301319680 (-48).
Proof. vm_compute. reflexivity. Qed.

Lemma of_Z_80 : of_Z 80 = S754_finite false 5629499534213120 (-46).
Proof. vm_compute. reflexivity. Qed.

Lemma below_30_below_80 v : leb v (of_Z 30) = true -> ltb v (of_Z 80) = true.
Proof.
  rewrite of_Z_30, of_Z_80. unfold leb, ltb, SFleb, SFltb.
  destruct v as [s|s| |s m e]; cbn [SFcompare]; try congruence.
  - destruct s; congruence.
  - destruct s; [congruence|].
    destruct (Z.compare_spec e (-48)), (Z.compare_spec e (-46)); try lia; congruence.
Qed.

Lemma above_80_above_30 v : leb (of_Z 80) v = true -> ltb (of_Z 30) v = true.
Proof.
  rewrite of_Z_30, of_Z_80. unfold leb, ltb, SFleb, SFltb.
  destruct v as [s|s| |s m e]; cbn [SFcompare]; try congruence.
  - destruct s; congruence.
  - destruct s; [congruence|].
    destruct (Z.compare_spec (-46) e), (Z.compare_spec (-48) e); try lia; congruence.
Qed.

Lemma lit_clamp brightness :
  lit brightness = Spec.clamp (of_Z 30) (of_Z 80) (mul (div brightness (of_Z 255)) (of_Z 100)).
Proof.
  unfold lit, Spec.clamp. generalize (mul (div brightness (of_Z 255)) (of_Z 100)). intros v.
  destruct (leb v (of_Z 30)) eqn:L30.
  - pose proof (below_30_below_80 v L30) as L80.
    pose proof (leb_not_ltb _ _ L30) as N30.
    assert (Hv : v <> S754_nan) by (intros ->; rewrite leb_nan_l in L30; discriminate).
    rewrite of_Z_30, of_Z_80 in *.
    rewrite Math_min_finite, L80, Math_max_finite, N30 by assumption. reflexivity.
  - destruct (leb (of_Z 80) v) eqn:G80.
    + pose proof (above_80_above_30 v G80) as G30.
      pose proof (leb_not_ltb _ _ G80) as N80.
      assert (Hv : v <> S754_nan) by (intros ->; rewrite leb_nan_r in G80; discriminate).
      rewrite of_Z_30, of_Z_80 in *.
      rewrite Math_min_finite, N80 by assumption. reflexivity.
    + rewrite of_Z_30, of_Z_80 in *.
      destruct v as [s|s| |s m e] eqn:Ev; try reflexivity; rewrite <- Ev in *;
        assert (Hv : v <> S754_nan) by (rewrite Ev; discriminate);
        rewrite Math_min_finite by assumption;
        rewrite (not_leb_ltb _ _ G80) by (assumption || discriminate);
        rewrite Math_max_finite by assumption;
        rewrite (not_leb_ltb _ _ L30) by (assumption || discriminate);
        reflexivity.
Qed.

(** *** The bands of a frame of height 300 *)

Lemma third_of_300 : div (of_Z 300) (of_Z 3) = of_Z 100.
Proof. vm_compute. reflexivity. Qed.

Lemma two_thirds_of_300 : mul (div (of_Z 300) (of_Z 3)) (of_Z 2) = of_Z 200.
Proof. vm_compute. reflexivity. Qed.

Lemma sixth_of_300 : div (of_Z 300) (of_Z 6) = of_Z 50.
Proof. vm_compute. reflexivity. Qed.

(** Rows of a frame of height 300 compare with the band limits as the
    integers do. *)
Lemma rows_of_300 y :
  0 <= y < 300 ->
  ltb (of_Z y) (of_Z 100) = (y <? 100) /\ ltb (of_Z y) (of_Z 200) = (y <? 200).
Proof.
  intros Hy.
  pose proof (holds_below_spec 300
    (fun y => Bool.eqb (ltb (of_Z y) (of_Z 100)) (y <? 100)
              && Bool.eqb (ltb (of_Z y) (of_Z 200)) (y <? 200))) as H.
  specialize (H ltac:(vm_compute; reflexivity) y Hy).
  apply andb_true_iff in H. destruct H as [H1 H2].
  apply eqb_prop in H1, H2. auto.
Qed.

(** The three bands of a frame of height 300. *)
Lemma bands_of_300 y x width brightness :
  0 <= y < 300 ->
  getColor (of_Z y) (of_Z 300) x width brightness =
    if y <? 100 then hsl 25 100 (lit brightness)
    else if y <? 200 then
      if ltb (dist (of_Z y) (of_Z 300) x width) (of_Z 50)
      then hsl 240 100 (lit brightness) else hsl 0 0 (lit brightness)
    else hsl 130 90 (lit brightness).
Proof.
  intros Hy. destruct (rows_of_300 y Hy) as [H1 H2].
  unfold getColor. rewrite two_thirds_of_300, third_of_300, sixth_of_300, H1, H2.
  reflexivity.
Qed.

Lemma dist_150_101 : dist (of_Z 101) (of_Z 300) (of_Z 150) (of_Z 300) = of_Z 49.
Proof. vm_compute. reflexivity. Qed.

Lemma dist_150_100 : dist (of_Z 100) (of_Z 300) (of_Z 150) (of_Z 300) = of_Z 50.
Proof. vm_compute. reflexivity. Qed.

Lemma dist_150_150 : dist (of_Z 150) (of_Z 300) (of_Z 150) (of_Z 300) = of_Z 0.
Proof. vm_compute. reflexivity. Qed.

(** *** The palette *)

Section Palette.
Variable chars : string.
Hypothesis HN : 2 <= Z.of_nat (String.length chars) < 2 ^ 53.

(** [chars.length - 1] is the last index of the palette. *)
Lemma last_index :
  sub (chars_length chars) (of_Z 1) = of_Z (Z.of_nat (String.length chars) - 1).
Proof. unfold chars_length. apply sub_of_Z; apply exact_int_range; lia. Qed.

Lemma charIndex_formula avg :
  charIndex chars avg
  = Math_floor (mul (div avg (of_Z 255)) (of_Z (Z.of_nat (String.length chars) - 1))).
Proof. unfold charIndex. rewrite last_index. reflexivity. Qed.

(** The glyph of an integer [charIndex] is the palette entry counted
    from the end. *)
Lemma char_select avg idx :
  0 <= idx <= Z.of_nat (String.length chars) - 1 ->
  charIndex chars avg = of_Z idx ->
  char chars avg = String.get (Z.to_nat (Z.of_nat (String.length chars) - 1 - idx)) chars.
Proof.
  intros Hidx Hci. unfold char. rewrite Hci, last_index.
  rewrite sub_of_Z by (apply exact_int_range; lia).
  unfold string_at. rewrite integer_value_of_Z by (apply exact_int_range; lia).
  destruct (Z.ltb_spec (Z.of_nat (String.length chars) - 1 - idx) 0); [lia | reflexivity].
Qed.

Lemma charIndex_darkest : charIndex chars (of_Z 0) = of_Z 0.
Proof.
  rewrite charIndex_formula.
  replace (div (of_Z 0) (of_Z 255)) with (S754_zero false) by (vm_compute; reflexivity).
  rewrite mul_zero_of_Z by (try apply exact_int_range; lia). reflexivity.
Qed.

Lemma charIndex_brightest :
  charIndex chars (of_Z 255) = of_Z (Z.of_nat (String.length chars) - 1).
Proof.
  rewrite charIndex_formula.
  replace (div (of_Z 255) (of_Z 255)) with lit_1_0 by (vm_compute; reflexivity).
  rewrite mul_one_of_Z, floor_of_Z by (apply exact_int_range; lia). reflexivity.
Qed.
End Palette.


(** *** The example frames *)

Lemma frame_a_ok : frame_of 8 4 Examples.frame_a.
Proof.
  split; [lia|]. split; [lia|]. split; [reflexivity|].
  apply Forall_forall. intros v Hv. apply repeat_spec in Hv. subst v. unfold is_byte. lia.
Qed.

Lemma frame_b_ok : frame_of 8 4 Examples.frame_b.
Proof.
  split; [lia|]. split; [lia|]. split; [reflexivity|]. unfold Examples.frame_b.
  constructor; [unfold is_byte; lia|]. constructor; [unfold is_byte; lia|].
  apply Forall_forall. intros v Hv. apply repeat_spec in Hv. subst v. unfold is_byte. lia.
Qed.

End CoreFacts.

(** ** The claims of the specification *)

Import Number Core NumberFacts CoreFacts.

(** *** The colour function *)

(** C1, as stated, fails: the cell (150, 101) of a 300 x 300 frame is not
    classified neutral.  Its distance from the centre is 49, which is less
    than height / 6 = 50, so it lies inside the disc and is navy. *)
Lemma C1_counterexample :
  ~ (getColor (of_Z 150) (of_Z 300) (of_Z 150) (of_Z 300) (of_Z 128)
     = hsl 240 100 (lit (of_Z 128))
     /\ getColor (of_Z 101) (of_Z 300) (of_Z 150) (of_Z 300) (of_Z 128)
        = hsl 0 0 (lit (of_Z 128))).
Proof.
  intros [_ H]. rewrite bands_of_300 in H by lia.
  rewrite dist_150_101 in H. vm_compute in H. discriminate H.
Qed.

(** C1, amended: for width = height = 300 the colour function classifies
    the centre cell (150, 150) as navy; the middle-zone cell (150, 101) is
    at distance 49 < height / 6 = 50 from the centre and is navy as well; a
    middle-zone cell at distance at least height / 6, such as (150, 100) at
    distance exactly 50, is classified as the neutral zero-saturation
    colour. *)
Theorem C1_middle_zone_disc :
  forall brightness,
    getColor (of_Z 150) (of_Z 300) (of_Z 150) (of_Z 300) brightness
    = hsl 240 100 (lit brightness)
    /\ (dist (of_Z 101) (of_Z 300) (of_Z 150) (of_Z 300) = of_Z 49
        /\ div (of_Z 300) (of_Z 6) = of_Z 50
        /\ ltb (of_Z 49) (of_Z 50) = true
        /\ getColor (of_Z 101) (of_Z 300) (of_Z 150) (of_Z 300) brightness
           = hsl 240 100 (lit brightness))
    /\ (dist (of_Z 100) (of_Z 300) (of_Z 150) (of_Z 300) = of_Z 50
        /\ ltb (of_Z 50) (of_Z 50) = false
        /\ getColor (of_Z 100) (of_Z 300) (of_Z 150) (of_Z 300) brightness
           = hsl 0 0 (lit brightness)).
Proof.
  intros brightness. rewrite !bands_of_300 by lia.
  rewrite dist_150_150, dist_150_101, dist_150_100.
  repeat split; vm_compute; reflexivity.
Qed.

(** C6: in a frame of height 300 the row y = 99 is in the top band (the
    saffron hue), the rows y = 100 and y = 199 are in the middle band (navy
    inside the disc, neutral outside) and the row y = 200 is in the bottom
    band (green), whatever the column, the width and the brightness. *)
Theorem C6_zone_boundaries :
  forall x width brightness,
    getColor (of_Z 99) (of_Z 300) x width brightness = hsl 25 100 (lit brightness)
    /\ getColor (of_Z 100) (of_Z 300) x width brightness
       = (if ltb (dist (of_Z 100) (of_Z 300) x width) (div (of_Z 300) (of_Z 6))
          then hsl 240 100 (lit brightness) else hsl 0 0 (lit brightness))
    /\ getColor (of_Z 199) (of_Z 300) x width brightness
       = (if ltb (dist (of_Z 199) (of_Z 300) x width) (div (of_Z 300) (of_Z 6))
          then hsl 240 100 (lit brightness) else hsl 0 0 (lit brightness))
    /\ getColor (of_Z 200) (of_Z 300) x width brightness = hsl 130 90 (lit brightness).
Proof.
  intros x width brightness. rewrite sixth_of_300, !bands_of_300 by lia.
  repeat split.
Qed.

(** C7: the lightness is clamp(30, 80, (brightness / 255) * 100) for every
    brightness; brightness 0 gives exactly 30, brightness 255 exactly 80,
    and brightness 127 and 128 give values strictly between 30 and 80. *)
Theorem C7_lightness_clamp :
  (forall brightness,
      lit brightness
      = Spec.clamp (of_Z 30) (of_Z 80) (mul (div brightness (of_Z 255)) (of_Z 100)))
  /\ lit (of_Z 0) = of_Z 30
  /\ lit (of_Z 255) = of_Z 80
  /\ (ltb (of_Z 30) (lit (of_Z 127)) = true /\ ltb (lit (of_Z 127)) (of_Z 80) = true)
  /\ (ltb (of_Z 30) (lit (of_Z 128)) = true /\ ltb (lit (of_Z 128)) (of_Z 80) = true).
Proof.
  split; [exact lit_clamp|].
  repeat split; vm_compute; reflexivity.
Qed.

(** *** The glyph mapping *)

(** C2: for a palette of length N >= 2 the glyph mapping computes
    charIndex = floor((avg / 255) * (N - 1)) and selects the palette entry
    N - 1 - charIndex; brightness 0 selects entry N - 1 and brightness 255
    selects entry 0. *)
Theorem C2_glyph_inversion (chars : string) :
  2 <= Z.of_nat (String.length chars) < 2 ^ 53 ->
  (forall avg,
      charIndex chars avg
      = Math_floor (mul (div avg (of_Z 255)) (of_Z (Z.of_nat (String.length chars) - 1))))
  /\ (forall avg idx,
         0 <= idx <= Z.of_nat (String.length chars) - 1 ->
         charIndex chars avg = of_Z idx ->
         char chars avg
         = String.get (Z.to_nat (Z.of_nat (String.length chars) - 1 - idx)) chars)
  /\ (charIndex chars (of_Z 0) = of_Z 0
      /\ char chars (of_Z 0) = String.get (String.length chars - 1) chars)
  /\ (charIndex chars (of_Z 255) = of_Z (Z.of_nat (String.length chars) - 1)
      /\ char chars (of_Z 255) = String.get 0 chars).
Proof.
  intros HN. split; [|split; [|split; split]].
  - apply charIndex_formula. exact HN.
  - apply char_select. exact HN.
  - apply charIndex_darkest. exact HN.
  - rewrite (char_select chars HN (of_Z 0) 0) by (try apply charIndex_darkest; lia).
    f_equal. lia.
  - apply charIndex_brightest. exact HN.
  - rewrite (char_select chars HN (of_Z 255) (Z.of_nat (String.length chars) - 1))
      by (try apply charIndex_brightest; lia).
    f_equal. lia.
Qed.

Lemma C2_glyph_inversion_witness :
  2 <= Z.of_nat (String.length Script.chars) < 2 ^ 53
  /\ char Script.chars (of_Z 0) = String.get 10 Script.chars
  /\ char Script.chars (of_Z 255) = String.get 0 Script.chars.
Proof.
  assert (H : 2 <= Z.of_nat (String.length Script.chars) < 2 ^ 53)
    by (vm_compute; split; [discriminate | reflexivity]).
  split; [exact H|].
  destruct (C2_glyph_inversion Script.chars H) as (_ & _ & (_ & H0) & (_ & H255)).
  split; [exact H0 | exact H255].
Defined.





(** *** Motion and the history buffer *)

(** C9: the motion flag of a cell decides only the opacity of what the
    cell paints, 1.0 when the cell is flagged moving and 0.3 otherwise; the
    glyph, the colour and the position of every cell are the same whatever
    the history buffer, hence whatever the flags.  Every cell of the grid
    is scanned with the average of its pixel, and every scanned cell whose
    average exceeds 15 does paint a glyph, at the opacity of its flag. *)
Theorem C9_motion_only_opacity :
  forall st1 st2 data out1 out2 st1' st2',
    canvas_width st2 = canvas_width st1 ->
    canvas_height st2 = canvas_height st1 ->
    Script.draw st1 data = Some (out1, st1') ->
    Script.draw st2 data = Some (out2, st2') ->
    (forall it c,
        In it out1 -> call it = Some c ->
        globalAlpha c = if isMoving it then of_Z 1 else div (of_Z 3) (of_Z 10))
    /\ map painted out1 = map painted out2
    /\ (forall it,
           In it out1 -> gtb (avg it) (of_Z 15) = true ->
           exists c,
             call it = Some c
             /\ globalAlpha c = if isMoving it then of_Z 1 else div (of_Z 3) (of_Z 10))
    /\ (forall x y,
           0 <= x < canvas_width st1 -> 0 <= y < canvas_height st1 ->
           x mod 4 = 0 -> y mod 4 = 0 ->
           exists it,
             In it out1 /\ cell_x it = x /\ cell_y it = y
             /\ avg it = pixel_avg data ((y * canvas_width st1 + x) * 4)
             /\ isMoving it
                = pixel_isMoving Script.motionThreshold data
                    (reinit (previousFrameData st1) data) ((y * canvas_width st1 + x) * 4)).
Proof.
  intros st1 st2 data out1 out2 st1' st2' Hw Hh D1 D2.
  apply draw_Some in D1, D2. rewrite Hw, Hh in D2.
  assert (Halpha : forall it c,
             In it out1 -> call it = Some c ->
             globalAlpha c = if isMoving it then of_Z 1 else div (of_Z 3) (of_Z 10)).
  { intros it c Hin Hc. rewrite D1 in Hin. apply In_scan in Hin.
    destruct Hin as (y & x & _ & _ & ->). unfold scan_cell in *. cbn [call isMoving] in *.
    destruct (gtb (pixel_avg data ((y * canvas_width st1 + x) * 4)) (of_Z 15));
      [|discriminate Hc].
    injection Hc as <-. cbn [globalAlpha].
    destruct (pixel_isMoving Script.motionThreshold data _ _); vm_compute; reflexivity. }
  split; [exact Halpha|]. split; [rewrite D1, D2; apply painted_scan|]. split.
  - intros it Hin Hgt.
    assert (Hc : exists c, call it = Some c).
    { rewrite D1 in Hin. apply In_scan in Hin. destruct Hin as (y & x & _ & _ & E).
      rewrite E in Hgt |- *. unfold scan_cell in Hgt |- *. cbn [avg call] in Hgt |- *.
      rewrite Hgt. eexists. reflexivity. }
    destruct Hc as [c Hc]. exists c. split; [exact Hc|]. apply Halpha; assumption.
  - intros x y Hx Hy Mx My.
    exists (scan_cell Script.chars Script.motionThreshold (canvas_width st1)
                      (canvas_height st1) data (reinit (previousFrameData st1) data) y x).
    split; [rewrite D1; apply scan_visits; assumption|].
    repeat split.
Qed.

Lemma C9_motion_only_opacity_witness :
  exists out1 out2 st1' st2',
    Script.draw {| canvas_width := 8; canvas_height := 4;
                   previousFrameData := Uint8ClampedArray Examples.frame_a |}
                Examples.frame_b = Some (out1, st1')
    /\ Script.draw Examples.canvas_8x4 Examples.frame_b = Some (out2, st2')
    /\ map isMoving out1 = [true; false]
    /\ map isMoving out2 = [false; false]
    /\ map (fun it => option_map globalAlpha (call it)) out1
       = [Some (of_Z 1); Some (div (of_Z 3) (of_Z 10))]
    /\ map (fun it => option_map globalAlpha (call it)) out2
       = [Some (div (of_Z 3) (of_Z 10)); Some (div (of_Z 3) (of_Z 10))]
    /\ map painted out1 = map painted out2
    /\ exists c,
        call (Examples.first_cell Examples.frame_b (Uint8ClampedArray Examples.frame_a))
        = Some c
        /\ globalAlpha c = of_Z 1.
Proof.
  eexists. eexists. eexists. eexists.
  assert (D1 : Script.draw {| canvas_width := 8; canvas_height := 4;
                              previousFrameData := Uint8ClampedArray Examples.frame_a |}
                           Examples.frame_b
               = Some (scan Script.fontSize Script.chars Script.motionThreshold 8 4
                            Examples.frame_b (Uint8ClampedArray Examples.frame_a),
                       {| canvas_width := 8; canvas_height := 4;
                          previousFrameData := Uint8ClampedArray Examples.frame_b |}))
    by (vm_compute; reflexivity).
  assert (D2 : Script.draw Examples.canvas_8x4 Examples.frame_b
               = Some (scan Script.fontSize Script.chars Script.motionThreshold 8 4
                            Examples.frame_b (Uint8ClampedArray Examples.frame_b),
                       {| canvas_width := 8; canvas_height := 4;
                          previousFrameData := Uint8ClampedArray Examples.frame_b |}))
    by (vm_compute; reflexivity).
  pose proof (C9_motion_only_opacity
                {| canvas_width := 8; canvas_height := 4;
                   previousFrameData := Uint8ClampedArray Examples.frame_a |}
                Examples.canvas_8x4
                Examples.frame_b _ _ _ _ eq_refl eq_refl D1 D2) as (_ & Hpainted & Hdrawn & _).
  split; [exact D1|]. split; [exact D2|].
  split; [vm_compute; reflexivity|]. split; [vm_compute; reflexivity|].
  split; [vm_compute; reflexivity|]. split; [vm_compute; reflexivity|].
  split; [exact Hpainted|].
  apply (Hdrawn (Examples.first_cell Examples.frame_b (Uint8ClampedArray Examples.frame_a))).
  - left. reflexivity.
  - vm_compute. reflexivity.
Defined.

(** C8: a tick ends with the history buffer holding a copy of the frame it
    drew, of the same length, whatever the history was before; the next
    tick on a frame of that length diffs against this copy and leaves the
    history holding its own frame in turn. *)
Theorem C8_history_is_previous_frame :
  forall st data,
    data <> [] ->
    exists out st',
      Script.draw st data = Some (out, st')
      /\ previousFrameData st' = Uint8ClampedArray data
      /\ buffer_length (previousFrameData st') = Z.of_nat (List.length data)
      /\ forall data',
          data' <> [] -> List.length data' = List.length data ->
          exists out' st'',
            Script.draw st' data' = Some (out', st'')
            /\ out' = scan Script.fontSize Script.chars Script.motionThreshold
                           (canvas_width st) (canvas_height st) data'
                           (Uint8ClampedArray data)
            /\ previousFrameData st'' = Uint8ClampedArray data'.
Proof.
  intros st data Hne.
  destruct (tick_then_tick st data Hne) as (out & st' & D & _ & Est & Hnext).
  exists out, st'. split; [exact D|]. rewrite Est. cbn [previousFrameData buffer_length].
  split; [reflexivity|]. split; [reflexivity|].
  intros data' Hne' Hlen. rewrite Est in Hnext. eexists. eexists.
  split; [apply Hnext; assumption|]. split; reflexivity.
Qed.

Lemma C8_history_is_previous_frame_witness :
  Examples.frame_a <> []
  /\ exists out st',
      Script.draw Examples.canvas_8x4 Examples.frame_a = Some (out, st')
      /\ previousFrameData st' = Uint8ClampedArray Examples.frame_a.
Proof.
  assert (Hne : Examples.frame_a <> []) by (vm_compute; discriminate).
  split; [exact Hne|].
  destruct (C8_history_is_previous_frame Examples.canvas_8x4 Examples.frame_a Hne)
    as (out & st' & D & Hp & _).
  exists out, st'. split; [exact D | exact Hp].
Defined.

(** C3: a cell is flagged as moving exactly when the absolute difference
    between the green byte of the current frame and the green byte of the
    history buffer at that cell is strictly greater than the threshold 8.
    For two consecutive frames that are identical except for the green
    byte of one cell: when that byte differs by exactly 9, that cell is
    flagged and no other is; when it differs by exactly 8, no cell is
    flagged. *)
Theorem C3_motion_threshold :
  forall st data1 data2,
    frame_of (canvas_width st) (canvas_height st) data1 ->
    frame_of (canvas_width st) (canvas_height st) data2 ->
    exists out1 st1 out2 st2,
      Script.draw st data1 = Some (out1, st1)
      /\ Script.draw st1 data2 = Some (out2, st2)
      /\ (forall it, In it out2 ->
            exists g prevG,
              nth_error data2 (green_offset (canvas_width st) it) = Some g
              /\ nth_error data1 (green_offset (canvas_width st) it) = Some prevG
              /\ isMoving it = (8 <? Z.abs (g - prevG)))
      /\ (forall x0 y0 g prevG,
            0 <= x0 < canvas_width st -> 0 <= y0 < canvas_height st ->
            x0 mod 4 = 0 -> y0 mod 4 = 0 ->
            let i0 := Z.to_nat ((y0 * canvas_width st + x0) * 4 + 1) in
            nth_error data2 i0 = Some g -> nth_error data1 i0 = Some prevG ->
            (forall j, j <> i0 -> nth_error data2 j = nth_error data1 j) ->
            (Z.abs (g - prevG) = 9 ->
             (exists it, In it out2 /\ cell_x it = x0 /\ cell_y it = y0 /\ isMoving it = true)
             /\ (forall it, In it out2 -> isMoving it = true -> cell_x it = x0 /\ cell_y it = y0))
            /\ (Z.abs (g - prevG) = 8 ->
                forall it, In it out2 -> isMoving it = false)).
Proof.
  intros st data1 data2 Hf1 Hf2.
  pose proof (frame_nonempty _ _ _ Hf1) as Hne1.
  pose proof (frame_nonempty _ _ _ Hf2) as Hne2.
  assert (Hlen : List.length data2 = List.length data1).
  { destruct Hf1 as (_ & _ & L1 & _), Hf2 as (_ & _ & L2 & _). lia. }
  destruct (tick_then_tick st data1 Hne1) as (out1 & st1 & D1 & _ & _ & Hnext).
  specialize (Hnext data2 Hne2 Hlen).
  set (w := canvas_width st) in *. set (h := canvas_height st) in *.
  set (out2 := scan Script.fontSize Script.chars Script.motionThreshold w h data2
                    (Uint8ClampedArray data1)) in *.
  exists out1, st1, out2. eexists. split; [exact D1|]. split; [exact Hnext|].
  assert (Hall : forall it, In it out2 ->
            exists g prevG,
              nth_error data2 (green_offset w it) = Some g
              /\ nth_error data1 (green_offset w it) = Some prevG
              /\ isMoving it = (8 <? Z.abs (g - prevG))).
  { intros it Hin. apply (scan_isMoving Script.chars w h data2 data1 it Hf2 Hf1 Hin). }
  split; [exact Hall|].
  intros x0 y0 g prevG Hx0 Hy0 Mx My i0 Eg Ep Hsame.
  assert (Hother : forall it, In it out2 -> green_offset w it <> i0 -> isMoving it = false).
  { intros it Hin Hne. destruct (Hall it Hin) as (g' & p' & Eg' & Ep' & ->).
    rewrite (Hsame _ Hne) in Eg'. assert (g' = p') by congruence. subst p'.
    rewrite Z.sub_diag. reflexivity. }
  assert (Hhere : forall it, In it out2 -> green_offset w it = i0 ->
                             isMoving it = (8 <? Z.abs (g - prevG))).
  { intros it Hin E. destruct (Hall it Hin) as (g' & p' & Eg' & Ep' & ->).
    rewrite E in Eg', Ep'. congruence. }
  split.
  - intros H9. split.
    + exists (scan_cell Script.chars Script.motionThreshold w h data2 (Uint8ClampedArray data1) y0 x0).
      assert (Hin : In (scan_cell Script.chars Script.motionThreshold w h data2
                                  (Uint8ClampedArray data1) y0 x0) out2)
        by (apply scan_visits; assumption).
      split; [exact Hin|]. split; [reflexivity|]. split; [reflexivity|].
      rewrite (Hhere _ Hin) by reflexivity. rewrite H9. reflexivity.
    + intros it Hin Hmov.
      destruct (scan_cells _ _ _ _ _ _ _ Hin) as (Hx & Hy & _).
      destruct (Nat.eq_dec (green_offset w it) i0) as [E|Hne].
      * apply (green_offset_inj w h it x0 y0); assumption.
      * rewrite (Hother it Hin Hne) in Hmov. discriminate.
  - intros H8 it Hin.
    destruct (Nat.eq_dec (green_offset w it) i0) as [E|Hne].
    + rewrite (Hhere it Hin E), H8. reflexivity.
    + apply Hother; assumption.
Qed.

Lemma C3_motion_threshold_witness :
  frame_of 8 4 Examples.frame_a
  /\ frame_of 8 4 Examples.frame_b
  /\ exists out1 st1 out2 st2,
      Script.draw Examples.canvas_8x4 Examples.frame_a = Some (out1, st1)
      /\ Script.draw st1 Examples.frame_b = Some (out2, st2)
      /\ forall it, In it out2 -> isMoving it = true -> cell_x it = 0 /\ cell_y it = 0.
Proof.
  split; [exact frame_a_ok|]. split; [exact frame_b_ok|].
  destruct (C3_motion_threshold Examples.canvas_8x4 Examples.frame_a Examples.frame_b
              frame_a_ok frame_b_ok) as (out1 & st1 & out2 & st2 & D1 & D2 & _ & H).
  exists out1, st1, out2, st2. split; [exact D1|]. split; [exact D2|].
  refine (proj2 (proj1 (H 0 0 109 100 _ _ _ _ _ _ _) _)); cbn [canvas_width canvas_height
    Examples.canvas_8x4]; try (vm_compute; reflexivity); try lia.
  intros j Hj. destruct j as [|[|j]]; [reflexivity | exfalso; apply Hj; reflexivity | reflexivity].
Defined.

(** C4: after a resize the first tick flags no cell as moving, whatever
    the state before the resize held and whatever the frame shows, so that
    every glyph of that tick is drawn at opacity 0.3; the second tick after
    the resize diffs against the first frame drawn after it.  Both ticks
    scan every cell of the grid of the resized canvas: each cell is
    unflagged in the first tick and flagged in the second exactly when its
    green byte moved by more than 8 since the first frame. *)
Theorem C4_resize_invalidation :
  forall st innerWidth innerHeight data1 data2,
    frame_of innerWidth innerHeight data1 ->
    frame_of innerWidth innerHeight data2 ->
    exists out1 st1 out2 st2,
      Script.draw (handleResize st innerWidth innerHeight) data1 = Some (out1, st1)
      /\ (forall it, In it out1 -> isMoving it = false)
      /\ (forall it c, In it out1 -> call it = Some c -> globalAlpha c = lit_0_3)
      /\ Script.draw st1 data2 = Some (out2, st2)
      /\ (forall it, In it out2 ->
            exists g prevG,
              nth_error data2 (green_offset innerWidth it) = Some g
              /\ nth_error data1 (green_offset innerWidth it) = Some prevG
              /\ isMoving it = (8 <? Z.abs (g - prevG)))
      /\ (forall x y,
            0 <= x < innerWidth -> 0 <= y < innerHeight ->
            x mod 4 = 0 -> y mod 4 = 0 ->
            (exists it,
                In it out1 /\ cell_x it = x /\ cell_y it = y /\ isMoving it = false)
            /\ (exists it g prevG,
                   In it out2 /\ cell_x it = x /\ cell_y it = y
                   /\ nth_error data2 (Z.to_nat ((y * innerWidth + x) * 4 + 1)) = Some g
                   /\ nth_error data1 (Z.to_nat ((y * innerWidth + x) * 4 + 1)) = Some prevG
                   /\ isMoving it = (8 <? Z.abs (g - prevG)))).
Proof.
  intros st w h data1 data2 Hf1 Hf2.
  pose proof (frame_nonempty _ _ _ Hf1) as Hne1.
  pose proof (frame_nonempty _ _ _ Hf2) as Hne2.
  assert (Hlen : List.length data2 = List.length data1).
  { destruct Hf1 as (_ & _ & L1 & _), Hf2 as (_ & _ & L2 & _). lia. }
  destruct (tick_then_tick (handleResize st w h) data1 Hne1)
    as (out1 & st1 & D1 & Hout1 & _ & Hnext).
  specialize (Hnext data2 Hne2 Hlen). cbn [handleResize canvas_width canvas_height] in Hnext.
  exists out1, st1. eexists. eexists.
  cbn [handleResize canvas_width canvas_height previousFrameData] in Hout1.
  replace (reinit EmptyArray data1) with (Uint8ClampedArray data1) in Hout1.
  2:{ unfold reinit. cbn [buffer_length].
      destruct (Z.eqb_spec 0 (Z.of_nat (List.length data1))) as [E|_]; [|reflexivity].
      destruct data1; [congruence | discriminate E]. }
  assert (Hstill : forall it, In it out1 -> isMoving it = false).
  { intros it Hin. rewrite Hout1 in Hin.
    destruct (scan_isMoving Script.chars w h data1 data1 it Hf1 Hf1 Hin)
      as (g & p & Eg & Ep & ->).
    assert (g = p) by congruence. subst p. rewrite Z.sub_diag. reflexivity. }
  assert (Hdiff : forall it,
             In it (scan Script.fontSize Script.chars Script.motionThreshold w h data2
                         (Uint8ClampedArray data1)) ->
             exists g prevG,
               nth_error data2 (green_offset w it) = Some g
               /\ nth_error data1 (green_offset w it) = Some prevG
               /\ isMoving it = (8 <? Z.abs (g - prevG))).
  { intros it Hin. apply (scan_isMoving Script.chars w h data2 data1 it Hf2 Hf1 Hin). }
  split; [exact D1|]. split; [exact Hstill|]. split; [|split; [exact Hnext|split]].
  - intros it c Hin Hc. pose proof (Hstill it Hin) as Hm. rewrite Hout1 in Hin.
    destruct (scan_cells _ _ _ _ _ _ _ Hin) as (_ & _ & E).
    rewrite E in Hc, Hm. unfold scan_cell in Hc, Hm. cbn [call isMoving] in Hc, Hm.
    destruct (gtb (pixel_avg data1 _) (of_Z 15)); [|discriminate Hc].
    injection Hc as <-. cbn [globalAlpha]. rewrite Hm. reflexivity.
  - exact Hdiff.
  - intros x y Hx Hy Mx My. split.
    + exists (scan_cell Script.chars Script.motionThreshold w h data1
                        (Uint8ClampedArray data1) y x).
      assert (Hin : In (scan_cell Script.chars Script.motionThreshold w h data1
                                  (Uint8ClampedArray data1) y x) out1)
        by (rewrite Hout1; apply scan_visits; assumption).
      split; [exact Hin|]. split; [reflexivity|]. split; [reflexivity|].
      apply Hstill. exact Hin.
    + assert (Hin : In (scan_cell Script.chars Script.motionThreshold w h data2
                                  (Uint8ClampedArray data1) y x)
                       (scan Script.fontSize Script.chars Script.motionThreshold w h data2
                             (Uint8ClampedArray data1)))
        by (apply scan_visits; assumption).
      destruct (Hdiff _ Hin) as (g & p & Eg & Ep & Em).
      exists (scan_cell Script.chars Script.motionThreshold w h data2
                        (Uint8ClampedArray data1) y x), g, p.
      split; [exact Hin|]. split; [reflexivity|]. split; [reflexivity|].
      split; [exact Eg|]. split; [exact Ep | exact Em].
Qed.

Lemma C4_resize_invalidation_witness :
  frame_of 8 4 Examples.frame_b
  /\ frame_of 8 4 Examples.frame_a
  /\ exists out1 st1 out2 st2,
      Script.draw (handleResize
                     {| canvas_width := 4; canvas_height := 4;
                        previousFrameData := Uint8ClampedArray (repeat 7 64) |} 8 4)
                  Examples.frame_b = Some (out1, st1)
      /\ (forall it, In it out1 -> isMoving it = false)
      /\ (exists it, In it out1 /\ cell_x it = 0 /\ cell_y it = 0 /\ isMoving it = false)
      /\ Script.draw st1 Examples.frame_a = Some (out2, st2)
      /\ (exists it, In it out2 /\ cell_x it = 0 /\ cell_y it = 0 /\ isMoving it = true)
      /\ (exists it, In it out2 /\ cell_x it = 4 /\ cell_y it = 0 /\ isMoving it = false).
Proof.
  split; [exact frame_b_ok|]. split; [exact frame_a_ok|].
  destruct (C4_resize_invalidation
              {| canvas_width := 4; canvas_height := 4;
                 previousFrameData := Uint8ClampedArray (repeat 7 64) |}
              8 4 Examples.frame_b Examples.frame_a frame_b_ok frame_a_ok)
    as (out1 & st1 & out2 & st2 & D1 & Hstill & _ & D2 & _ & Hgrid).
  exists out1, st1, out2, st2.
  destruct (Hgrid 0 0 ltac:(lia) ltac:(lia) eq_refl eq_refl)
    as ((it1 & I1 & X1 & Y1 & M1) & (it2 & g & p & I2 & X2 & Y2 & Eg & Ep & M2)).
  destruct (Hgrid 4 0 ltac:(lia) ltac:(lia) eq_refl eq_refl)
    as (_ & (it3 & g' & p' & I3 & X3 & Y3 & Eg' & Ep' & M3)).
  split; [exact D1|]. split; [exact Hstill|].
  split; [exists it1; auto|]. split; [exact D2|]. split.
  - exists it2. split; [exact I2|]. split; [exact X2|]. split; [exact Y2|].
    rewrite M2. injection Eg as <-. injection Ep as <-. reflexivity.
  - exists it3. split; [exact I3|]. split; [exact X3|]. split; [exact Y3|].
    rewrite M3. injection Eg' as <-. injection Ep' as <-. reflexivity.
Defined.

(** ** Further properties of the script *)

(** *** The grid of the scan *)

(** The number of values a loop takes. *)
Lemma for_range_length step (Hstep : 0 < step) fuel :
  forall i stop, stop - i <= Z.of_nat fuel ->
  Z.of_nat (List.length (for_range fuel i stop step))
  = Z.max 0 ((stop - i + step - 1) / step).
Proof.
  induction fuel as [|fuel IH]; intros i stop Hfuel; simpl.
  - assert ((stop - i + step - 1) / step <= 0).
    { apply Z.lt_succ_r. apply Z.div_lt_upper_bound; lia. }
    lia.
  - destruct (Z.ltb_spec i stop) as [Hlt|Hge].
    + cbn [List.length]. rewrite Nat2Z.inj_succ, IH by lia.
      replace (stop - i + step - 1) with ((stop - (i + step) + step - 1) + 1 * step) by lia.
      rewrite Z.div_add by lia.
      assert (0 <= (stop - (i + step) + step - 1) / step) by (apply Z.div_pos; lia).
      lia.
    + assert ((stop - i + step - 1) / step <= 0).
      { apply Z.lt_succ_r. apply Z.div_lt_upper_bound; lia. }
      simpl. lia.
Qed.

Lemma for_range_NoDup step (Hstep : 0 < step) fuel :
  forall i stop, stop - i <= Z.of_nat fuel -> NoDup (for_range fuel i stop step).
Proof.
  induction fuel as [|fuel IH]; intros i stop Hfuel; simpl.
  - constructor.
  - destruct (Z.ltb_spec i stop) as [Hlt|Hge]; [|constructor].
    constructor; [|apply IH; lia].
    intros Hin. apply (for_range_spec step Hstep) in Hin; lia.
Qed.

Lemma NoDup_row (xs : list Z) (y : Z) :
  NoDup xs -> NoDup (map (fun x => (x, y)) xs).
Proof.
  induction 1 as [|x xs Hx Hxs IH]; cbn [map]; constructor; [|exact IH].
  intros Hin. apply in_map_iff in Hin. destruct Hin as (x' & [= ->] & Hin). contradiction.
Qed.

Lemma NoDup_grid (xs ys : list Z) :
  NoDup xs -> NoDup ys ->
  NoDup (flat_map (fun y => map (fun x => (x, y)) xs) ys).
Proof.
  intros Hxs Hys. induction Hys as [|y ys Hy Hys IH]; cbn [flat_map]; [constructor|].
  apply NoDup_app; [| exact IH |].
  - apply NoDup_row. exact Hxs.
  - intros [x y'] H1 H2. apply in_map_iff in H1. destruct H1 as (x' & [= <- <-] & _).
    apply in_flat_map in H2. destruct H2 as (y'' & Hy'' & H2).
    apply in_map_iff in H2. destruct H2 as (x'' & [= _ <-] & _). contradiction.
Qed.

Lemma cells_of_scan fontSize chars motionThreshold width height data prev :
  map (fun it => (cell_x it, cell_y it))
      (scan fontSize chars motionThreshold width height data prev)
  = flat_map (fun y => map (fun x => (x, y)) (steps fontSize width)) (steps fontSize height).
Proof. rewrite map_scan. reflexivity. Qed.

(** X1: a tick visits exactly the cells whose two coordinates are
    multiples of 4 inside the canvas, each of them once, that is
    ceil(width / 4) * ceil(height / 4) cells. *)
Theorem X1_scan_grid :
  forall st data out st',
    0 <= canvas_width st -> 0 <= canvas_height st ->
    Script.draw st data = Some (out, st') ->
    (forall x y,
        In (x, y) (map (fun it => (cell_x it, cell_y it)) out)
        <-> (0 <= x < canvas_width st /\ x mod 4 = 0)
            /\ (0 <= y < canvas_height st /\ y mod 4 = 0))
    /\ NoDup (map (fun it => (cell_x it, cell_y it)) out)
    /\ Z.of_nat (List.length out)
       = ((canvas_width st + 3) / 4) * ((canvas_height st + 3) / 4).
Proof.
  intros st data out st' Hw Hh Hd. apply draw_Some in Hd. subst out.
  rewrite cells_of_scan. split; [|split].
  - intros x y. rewrite in_flat_map. split.
    + intros (y' & Hy & Hin). apply in_map_iff in Hin. destruct Hin as (x' & [= <- <-] & Hx).
      apply (In_steps _ fontSize_pos) in Hx, Hy. tauto.
    + intros [Hx Hy]. exists y. split; [apply (In_steps _ fontSize_pos); exact Hy|].
      apply (in_map (fun x => (x, y))). apply (In_steps _ fontSize_pos). exact Hx.
  - apply NoDup_grid; apply (for_range_NoDup _ fontSize_pos); lia.
  - rewrite <- (length_map (fun it => (cell_x it, cell_y it))), cells_of_scan.
    rewrite flat_map_constant_length with (c := List.length (steps Script.fontSize (canvas_width st)))
      by (intros; apply length_map).
    rewrite Nat2Z.inj_mul. unfold steps.
    rewrite !(for_range_length _ fontSize_pos) by lia.
    change Script.fontSize with 4. rewrite !Z.sub_0_r.
    replace (canvas_width st + 4 - 1) with (canvas_width st + 3) by lia.
    replace (canvas_height st + 4 - 1) with (canvas_height st + 3) by lia.
    assert (0 <= (canvas_width st + 3) / 4) by (apply Z.div_pos; lia).
    assert (0 <= (canvas_height st + 3) / 4) by (apply Z.div_pos; lia).
    lia.
Qed.

(** *** Samples as integers *)

(** The average of an iteration of a tick is the rounded third of the
    integer sum of the three bytes it read. *)
Lemma avg_rgb_sum st data out st' it :
  frame_of (canvas_width st) (canvas_height st) data ->
  Script.draw st data = Some (out, st') -> In it out ->
  0 <= Sampling.rgb_sum (canvas_width st) data it <= 765
  /\ avg it = div (of_Z (Sampling.rgb_sum (canvas_width st) data it)) (of_Z 3).
Proof.
  intros Hf Hd Hin.
  destruct (draw_iterations st data out st' it Hf Hd Hin) as (Hx & Hy & E).
  destruct (pixel_avg_frame _ _ data _ _ Hf Hx Hy)
    as (r & g & b & Er & Eg & Eb & Br & Bg & Bb & Havg).
  destruct (cell_offset _ _ _ _ Hx Hy) as [H0 _].
  unfold Sampling.rgb_sum.
  set (i := (cell_y it * canvas_width st + cell_x it) * 4) in *.
  replace (Z.to_nat (i + 1)) with (Z.to_nat i + 1)%nat in Eg by lia.
  replace (Z.to_nat (i + 2)) with (Z.to_nat i + 2)%nat in Eb by lia.
  rewrite (nth_error_nth _ _ 0 Er), (nth_error_nth _ _ 0 Eg), (nth_error_nth _ _ 0 Eb).
  split; [apply byte_sum; assumption|].
  rewrite E at 1. exact Havg.
Qed.

Lemma same_number_eq a b : Sampling.same_number a b = true -> a = b.
Proof.
  destruct a as [s|s| |s m e], b as [s'|s'| |s' m' e']; cbn [Sampling.same_number];
    intros H; try discriminate H; try reflexivity.
  - apply eqb_prop in H. congruence.
  - apply eqb_prop in H. congruence.
  - apply andb_true_iff in H. destruct H as [H He]. apply andb_true_iff in H.
    destruct H as [Hs Hm]. apply eqb_prop in Hs. apply Pos.eqb_eq in Hm.
    apply Z.eqb_eq in He. congruence.
Qed.

(** The glyph index of a byte average, computed in binary64, is the
    integer quotient [10 * s / 765]. *)
Lemma charIndex_integer s :
  0 <= s <= 765 ->
  charIndex Script.chars (div (of_Z s) (of_Z 3)) = of_Z (10 * s / 765).
Proof.
  intros Hs. apply same_number_eq.
  apply (holds_below_spec 766
    (fun s => Sampling.same_number (charIndex Script.chars (div (of_Z s) (of_Z 3)))
                                   (of_Z (10 * s / 765)))); [vm_compute; reflexivity | lia].
Qed.

(** The lightness of a byte average lies between 30 and 80; it is 30 up
    to the sum 229 and 80 from the sum 612 on. *)
Lemma lit_integer s :
  0 <= s <= 765 ->
  (leb (of_Z 30) (lit (div (of_Z s) (of_Z 3))) = true
   /\ leb (lit (div (of_Z s) (of_Z 3))) (of_Z 80) = true)
  /\ (if s <=? 229 then lit (div (of_Z s) (of_Z 3)) = of_Z 30
      else ltb (of_Z 30) (lit (div (of_Z s) (of_Z 3))) = true)
  /\ (if 612 <=? s then lit (div (of_Z s) (of_Z 3)) = of_Z 80
      else ltb (lit (div (of_Z s) (of_Z 3))) (of_Z 80) = true).
Proof.
  intros Hs.
  pose proof (holds_below_spec 766
    (fun s =>
       let l := lit (div (of_Z s) (of_Z 3)) in
       (leb (of_Z 30) l && leb l (of_Z 80))
       && (if s <=? 229 then Sampling.same_number l (of_Z 30) else ltb (of_Z 30) l)
       && (if 612 <=? s then Sampling.same_number l (of_Z 80) else ltb l (of_Z 80)))) as H.
  specialize (H ltac:(vm_compute; reflexivity) s ltac:(lia)). cbv beta zeta in H.
  apply andb_true_iff in H. destruct H as [H H80]. apply andb_true_iff in H.
  destruct H as [Hb H30]. apply andb_true_iff in Hb. split; [exact Hb|]. split.
  - destruct (s <=? 229); [apply same_number_eq|]; exact H30.
  - destruct (612 <=? s); [apply same_number_eq|]; exact H80.
Qed.

(** The colour of a cell has one of the four hue and saturation pairs of
    the script, and the lightness of its brightness. *)
Lemma getColor_palette y height x width brightness :
  exists h s,
    getColor y height x width brightness = hsl h s (lit brightness)
    /\ In (h, s) [(25, 100); (240, 100); (0, 0); (130, 90)].
Proof.
  unfold getColor.
  destruct (ltb y (div height (of_Z 3))); [exists 25, 100; cbn; auto|].
  destruct (ltb y (mul (div height (of_Z 3)) (of_Z 2))); [|exists 130, 90; cbn; auto 6].
  destruct (ltb (dist y height x width) (div height (of_Z 6)));
    [exists 240, 100 | exists 0, 0]; cbn; auto 6.
Qed.

(** What a tick paints at a cell it does not suppress. *)
Lemma call_fields st data out st' it c :
  frame_of (canvas_width st) (canvas_height st) data ->
  Script.draw st data = Some (out, st') -> In it out -> call it = Some c ->
  gtb (avg it) (of_Z 15) = true
  /\ text c = char Script.chars (avg it)
  /\ exists h s, fillStyle c = hsl h s (lit (avg it))
                 /\ In (h, s) [(25, 100); (240, 100); (0, 0); (130, 90)].
Proof.
  intros Hf Hd Hin Hc.
  destruct (draw_iterations st data out st' it Hf Hd Hin) as (_ & _ & E).
  rewrite E in Hc |- *. unfold scan_cell in Hc |- *. cbn [call avg] in Hc |- *.
  destruct (gtb (pixel_avg data _) (of_Z 15)); [|discriminate Hc].
  injection Hc as <-. cbn [text fillStyle].
  split; [reflexivity|]. split; [reflexivity|]. apply getColor_palette.
Qed.

(** X2: every glyph a tick paints on a frame has one of the four hue and
    saturation pairs of the script and a lightness between 30 and 80; in
    particular the lightness is never NaN and never the 20 the comment of
    [getColor] announces. *)
Theorem X2_lightness_bounds :
  forall st data out st' it c,
    frame_of (canvas_width st) (canvas_height st) data ->
    Script.draw st data = Some (out, st') ->
    In it out -> call it = Some c ->
    exists h s l,
      fillStyle c = hsl h s l
      /\ In (h, s) [(25, 100); (240, 100); (0, 0); (130, 90)]
      /\ leb (of_Z 30) l = true /\ leb l (of_Z 80) = true.
Proof.
  intros st data out st' it c Hf Hd Hin Hc.
  destruct (avg_rgb_sum st data out st' it Hf Hd Hin) as (Hs & Havg).
  destruct (call_fields st data out st' it c Hf Hd Hin Hc) as (_ & _ & h & s & Hc' & Hhs).
  destruct (lit_integer _ Hs) as ((L30 & L80) & _). rewrite <- Havg in L30, L80.
  exists h, s, (lit (avg it)). auto.
Qed.

(** X3: the lightness of a painted glyph is exactly 30 when the three
    colour bytes of its pixel sum to at most 229 (an average of at most
    76.33) and exactly 80 when they sum to at least 612 (an average of at
    least 204), and only then. *)
Theorem X3_lightness_saturates :
  forall st data out st' it c,
    frame_of (canvas_width st) (canvas_height st) data ->
    Script.draw st data = Some (out, st') ->
    In it out -> call it = Some c ->
    exists h s l,
      fillStyle c = hsl h s l
      /\ (l = of_Z 30 <-> Sampling.rgb_sum (canvas_width st) data it <= 229)
      /\ (l = of_Z 80 <-> 612 <= Sampling.rgb_sum (canvas_width st) data it).
Proof.
  intros st data out st' it c Hf Hd Hin Hc.
  destruct (avg_rgb_sum st data out st' it Hf Hd Hin) as (Hs & Havg).
  destruct (call_fields st data out st' it c Hf Hd Hin Hc) as (_ & _ & h & sa & Hc' & _).
  destruct (lit_integer _ Hs) as (_ & T30 & T80). rewrite <- Havg in T30, T80.
  set (s := Sampling.rgb_sum (canvas_width st) data it) in *.
  exists h, sa, (lit (avg it)). split; [exact Hc'|]. split.
  - destruct (Z.leb_spec s 229) as [Hle|Hgt].
    + split; [intros _; exact Hle | intros _; exact T30].
    + split; [|lia]. intros E30. rewrite E30 in T30. vm_compute in T30. discriminate T30.
  - destruct (Z.leb_spec 612 s) as [Hle|Hgt].
    + split; [intros _; exact Hle | intros _; exact T80].
    + split; [|lia]. intros E80. rewrite E80 in T80. vm_compute in T80. discriminate T80.
Qed.

(** X4: for the pixel of every cell of a frame, the glyph index the
    script computes in binary64 is the integer quotient
    10 * (r + g + b) / 765, and a painted glyph is never [undefined]: it is
    the palette character at position 10 minus that quotient. *)
Theorem X4_glyph_integer :
  forall st data out st' it,
    frame_of (canvas_width st) (canvas_height st) data ->
    Script.draw st data = Some (out, st') ->
    In it out ->
    charIndex Script.chars (avg it)
    = of_Z (10 * Sampling.rgb_sum (canvas_width st) data it / 765)
    /\ forall c, call it = Some c ->
                 text c <> None
                 /\ text c = String.get
                               (Z.to_nat (10 - 10 * Sampling.rgb_sum (canvas_width st) data it / 765))
                               Script.chars.
Proof.
  intros st data out st' it Hf Hd Hin.
  destruct (avg_rgb_sum st data out st' it Hf Hd Hin) as (Hs & Havg).
  set (s := Sampling.rgb_sum (canvas_width st) data it) in *.
  pose proof (charIndex_integer s Hs) as Hci. rewrite <- Havg in Hci.
  assert (Hq : 0 <= 10 * s / 765 <= 10).
  { split; [apply Z.div_pos; lia | apply Z.div_le_upper_bound; lia]. }
  split; [exact Hci|].
  intros c Hc.
  destruct (call_fields st data out st' it c Hf Hd Hin Hc) as (_ & Ht & _).
  assert (HN : 2 <= Z.of_nat (String.length Script.chars) < 2 ^ 53)
    by (vm_compute; split; [discriminate | reflexivity]).
  rewrite Ht, (char_select Script.chars HN (avg it) (10 * s / 765)).
  - change (Z.of_nat (String.length Script.chars) - 1) with 10. split; [|reflexivity].
    assert (Hlt : (Z.to_nat (10 - 10 * s / 765) < 11)%nat) by lia.
    revert Hlt. generalize (Z.to_nat (10 - 10 * s / 765)). intros n Hn.
    do 11 (destruct n as [|n]; [discriminate|]). lia.
  - change (Z.of_nat (String.length Script.chars) - 1) with 10. exact Hq.
  - exact Hci.
Qed.

(** X5: a tick paints a glyph at a cell of a frame exactly when the three
    colour bytes of its pixel sum to at least 46. *)
Theorem X5_drawn_iff_sum :
  forall st data out st' it,
    frame_of (canvas_width st) (canvas_height st) data ->
    Script.draw st data = Some (out, st') ->
    In it out ->
    (call it <> None <-> 46 <= Sampling.rgb_sum (canvas_width st) data it).
Proof.
  intros st data out st' it Hf Hd Hin.
  destruct (avg_rgb_sum st data out st' it Hf Hd Hin) as (Hs & Havg).
  destruct (draw_iterations st data out st' it Hf Hd Hin) as (_ & _ & E).
  set (s := Sampling.rgb_sum (canvas_width st) data it) in *.
  destruct (avg_floor s Hs) as [Hgt _]. rewrite <- Havg in Hgt.
  rewrite E in Hgt |- *. unfold scan_cell in Hgt |- *. cbn [avg call] in Hgt |- *.
  rewrite Hgt. destruct (Z.ltb_spec 45 s); split; try lia; try discriminate.
  intros H'; exfalso; apply H'; reflexivity.
Qed.

(** *** What the scan reads *)

Lemma flat_map_ext_in {A B : Type} (f g : A -> list B) (l : list A) :
  (forall a, In a l -> f a = g a) -> flat_map f l = flat_map g l.
Proof.
  induction l as [|a l IH]; intros H; [reflexivity|]. cbn [flat_map].
  rewrite (H a (or_introl eq_refl)), IH; [reflexivity|].
  intros b Hb. apply H. right. exact Hb.
Qed.

(** Two scans that agree cell by cell on the grid are equal. *)
Lemma scan_ext fontSize chars motionThreshold width height data prev data' prev' :
  (forall y x,
      In y (steps fontSize height) -> In x (steps fontSize width) ->
      scan_cell chars motionThreshold width height data prev y x
      = scan_cell chars motionThreshold width height data' prev' y x) ->
  scan fontSize chars motionThreshold width height data prev
  = scan fontSize chars motionThreshold width height data' prev'.
Proof.
  intros H. unfold scan. apply flat_map_ext_in. intros y Hy.
  apply map_ext_in. intros x Hx. apply H; assumption.
Qed.

Lemma elem_ext a a' i :
  nth_error a (Z.to_nat i) = nth_error a' (Z.to_nat i) -> elem a i = elem a' i.
Proof. intros H. unfold elem. rewrite H. reflexivity. Qed.

(** A cell of the scan depends on the frame through the three colour
    bytes of its pixel, and on the history through one green byte. *)
Lemma scan_cell_ext chars motionThreshold width height data prev data' prev' y x :
  (forall k, 0 <= k <= 2 ->
             nth_error data (Z.to_nat ((y * width + x) * 4 + k))
             = nth_error data' (Z.to_nat ((y * width + x) * 4 + k))) ->
  buffer_elem prev ((y * width + x) * 4 + 1) = buffer_elem prev' ((y * width + x) * 4 + 1) ->
  scan_cell chars motionThreshold width height data prev y x
  = scan_cell chars motionThreshold width height data' prev' y x.
Proof.
  intros Hd Hp. unfold scan_cell.
  assert (Ha : pixel_avg data ((y * width + x) * 4) = pixel_avg data' ((y * width + x) * 4)).
  { unfold pixel_avg.
    rewrite (elem_ext data data' ((y * width + x) * 4)),
            (elem_ext data data' ((y * width + x) * 4 + 1)),
            (elem_ext data data' ((y * width + x) * 4 + 2)); [reflexivity | | |].
    - apply Hd. lia.
    - apply Hd. lia.
    - rewrite <- (Z.add_0_r ((y * width + x) * 4)). apply Hd. lia. }
  assert (Hm : pixel_isMoving motionThreshold data prev ((y * width + x) * 4)
               = pixel_isMoving motionThreshold data' prev' ((y * width + x) * 4)).
  { unfold pixel_isMoving. rewrite Hp.
    rewrite (elem_ext data data' ((y * width + x) * 4 + 1)); [reflexivity|]. apply Hd. lia. }
  rewrite Ha, Hm. reflexivity.
Qed.

(** X6: what a tick computes depends on the frame only through the red,
    green and blue bytes of the top-left pixel of each cell: two frames of
    the canvas that agree on these bytes give the same iterations, whatever
    their alpha bytes and their other pixels hold. *)
Theorem X6_only_sampled_bytes :
  forall st data data' out out' st1 st2,
    frame_of (canvas_width st) (canvas_height st) data ->
    frame_of (canvas_width st) (canvas_height st) data' ->
    (forall x y k,
        0 <= x < canvas_width st -> x mod 4 = 0 ->
        0 <= y < canvas_height st -> y mod 4 = 0 ->
        0 <= k <= 2 ->
        nth_error data (Z.to_nat ((y * canvas_width st + x) * 4 + k))
        = nth_error data' (Z.to_nat ((y * canvas_width st + x) * 4 + k))) ->
    Script.draw st data = Some (out, st1) ->
    Script.draw st data' = Some (out', st2) ->
    out = out'.
Proof.
  intros st data data' out out' st1 st2 Hf Hf' Hsame D D'.
  apply draw_Some in D, D'. subst out out'.
  assert (Hlen : List.length data' = List.length data).
  { destruct Hf as (_ & _ & L & _), Hf' as (_ & _ & L' & _). lia. }
  apply scan_ext. intros y x Hy Hx.
  apply (In_steps _ fontSize_pos) in Hy, Hx. destruct Hy as [Hy My], Hx as [Hx Mx].
  apply scan_cell_ext.
  - intros k Hk. apply Hsame; assumption.
  - unfold reinit. rewrite Hlen.
    destruct (buffer_length (previousFrameData st) =? Z.of_nat (List.length data));
      [reflexivity|].
    cbn [buffer_elem]. apply elem_ext. apply (Hsame x y 1); (assumption || lia).
Qed.

(** *** Runs of handlers *)

Lemma reinit_same_length hist data :
  List.length data = List.length hist ->
  reinit (Uint8ClampedArray hist) data = Uint8ClampedArray hist.
Proof. intros H. unfold reinit. cbn [buffer_length]. rewrite H, Z.eqb_refl. reflexivity. Qed.

Lemma reinit_reset data : data <> [] -> reinit EmptyArray data = Uint8ClampedArray data.
Proof.
  intros H. unfold reinit. cbn [buffer_length].
  destruct (Z.eqb_spec 0 (Z.of_nat (List.length data))) as [E|_]; [|reflexivity].
  destruct data; [congruence | discriminate E].
Qed.

Lemma frame_length width height data data' :
  frame_of width height data -> frame_of width height data' ->
  List.length data' = List.length data.
Proof. intros (_ & _ & L & _) (_ & _ & L' & _). lia. Qed.

Lemma slow_refl data : EventLoop.slow data data.
Proof. intros j p g _ Hp Hg. assert (g = p) by congruence. subst. rewrite Z.sub_diag. simpl. lia. Qed.

(** A scan against a history whose green bytes are within 8 of the
    frame's flags no cell. *)
Lemma scan_slow chars width height data hist it :
  frame_of width height data -> frame_of width height hist ->
  EventLoop.slow hist data ->
  In it (scan Script.fontSize chars Script.motionThreshold width height data
              (Uint8ClampedArray hist)) ->
  isMoving it = false.
Proof.
  intros Hd Hh Hslow Hin.
  destruct (scan_cells _ _ _ _ _ _ _ Hin) as (Hx & Hy & _).
  destruct (scan_isMoving chars width height data hist it Hd Hh Hin)
    as (g & p & Eg & Ep & ->).
  apply Z.ltb_ge. change Script.motionThreshold with 8.
  apply (Hslow (green_offset width it) p g); [|assumption|assumption].
  unfold green_offset. destruct (cell_offset _ _ _ _ Hx Hy) as [H0 _].
  rewrite Z2Nat.id by lia.
  rewrite Z.add_comm, Z.mod_add by lia. reflexivity.
Qed.

(** A tick on a frame of the canvas returns, and leaves the frame as the
    history. *)
Lemma draw_tick st data :
  frame_of (canvas_width st) (canvas_height st) data ->
  Script.draw st data
  = Some (scan Script.fontSize Script.chars Script.motionThreshold
               (canvas_width st) (canvas_height st) data
               (reinit (previousFrameData st) data),
          {| canvas_width := canvas_width st;
             canvas_height := canvas_height st;
             previousFrameData := Uint8ClampedArray data |}).
Proof. intros Hf. apply draw_frame. eapply frame_nonempty. exact Hf. Qed.

(** X7: whatever sequence of loads, resizes and animation frames the
    script receives, as long as each frame is one [getImageData] can
    return for the canvas of the moment, no handler throws, each event is
    handled, and the history buffer stays either the reset empty array or
    a frame of the current canvas. *)
Theorem X7_run_never_throws :
  forall evs st,
    EventLoop.delivered (canvas_width st) (canvas_height st) evs ->
    EventLoop.history_fits st ->
    exists outs st',
      EventLoop.run st evs = Some (outs, st')
      /\ List.length outs = List.length evs
      /\ EventLoop.history_fits st'.
Proof.
  induction evs as [|ev evs IH]; intros st Hdel Hfit.
  - exists [], st. auto.
  - destruct ev as [w h data|w h|data]; cbn [EventLoop.delivered] in Hdel;
      cbn [EventLoop.run EventLoop.dispatch].
    + destruct Hdel as [Hf Hdel].
      rewrite (draw_tick (handleResize st w h) data Hf).
      cbn [handleResize canvas_width canvas_height].
      destruct (IH {| canvas_width := w; canvas_height := h;
                      previousFrameData := Uint8ClampedArray data |} Hdel Hf)
        as (outs & st' & -> & Hl & Hfit').
      eexists. eexists. split; [reflexivity|]. cbn [List.length]. auto.
    + destruct (IH (handleResize st w h) Hdel I) as (outs & st' & -> & Hl & Hfit').
      eexists. eexists. split; [reflexivity|]. cbn [List.length]. auto.
    + destruct Hdel as [Hf Hdel]. rewrite (draw_tick st data Hf).
      destruct (IH {| canvas_width := canvas_width st; canvas_height := canvas_height st;
                      previousFrameData := Uint8ClampedArray data |} Hdel Hf)
        as (outs & st' & -> & Hl & Hfit').
      eexists. eexists. split; [reflexivity|]. cbn [List.length]. auto.
Qed.

(** A run that returns has handled every event. *)
Lemma run_length evs :
  forall st outs st',
    EventLoop.run st evs = Some (outs, st') -> List.length outs = List.length evs.
Proof.
  induction evs as [|ev evs IH]; intros st outs st' Hr; cbn [EventLoop.run] in Hr.
  - injection Hr as <- _. reflexivity.
  - destruct (EventLoop.dispatch st ev) as [[out1 st1]|]; [|discriminate Hr].
    destruct (EventLoop.run st1 evs) as [[outs2 st2]|] eqn:E2; [|discriminate Hr].
    injection Hr as <- _. cbn [List.length]. f_equal. eapply IH. exact E2.
Qed.

(** Frames that follow one another slowly, run from a history that holds
    the frame before them. *)
Lemma run_drifting width height :
  forall rest first st,
    canvas_width st = width -> canvas_height st = height ->
    previousFrameData st = Uint8ClampedArray first ->
    frame_of width height first -> Forall (frame_of width height) rest ->
    EventLoop.drifting first rest ->
    exists outs st',
      EventLoop.run st (map EventLoop.animationFrame rest) = Some (outs, st')
      /\ (forall out it, In out outs -> In it out -> isMoving it = false)
      /\ previousFrameData st' = Uint8ClampedArray (last (first :: rest) []).
Proof.
  induction rest as [|next rest IH]; intros first st Hw Hh Hp Hf Hall Hdr.
  - exists [], st. split; [reflexivity|]. split; [intros out it []|exact Hp].
  - apply Forall_cons_iff in Hall. destruct Hall as [Hn Hall]. destruct Hdr as [Hslow Hdr].
    cbn [map EventLoop.run EventLoop.dispatch].
    rewrite draw_tick by (rewrite Hw, Hh; exact Hn).
    rewrite Hp, Hw, Hh, (reinit_same_length first next (frame_length _ _ _ _ Hf Hn)).
    destruct (IH next {| canvas_width := width; canvas_height := height;
                         previousFrameData := Uint8ClampedArray next |}
                 eq_refl eq_refl eq_refl Hn Hall Hdr) as (outs & st' & -> & Hstill & Hlast).
    eexists. eexists. split; [reflexivity|]. split.
    + intros out it [<-|Hout] Hin.
      * apply (scan_slow Script.chars width height next first it Hn Hf Hslow Hin).
      * apply (Hstill out it Hout Hin).
    + rewrite Hlast. reflexivity.
Qed.

(** X8: the history is always the frame before, never a fixed reference:
    along a sequence of frames whose green bytes change by at most 8 from
    one frame to the next, no cell is ever flagged as moving, however far
    the last frame has drifted from the first. *)
Theorem X8_slow_drift_unflagged :
  forall st width height first rest,
    frame_of width height first ->
    Forall (frame_of width height) rest ->
    EventLoop.drifting first rest ->
    exists outs st',
      EventLoop.run st (EventLoop.loadeddata width height first
                          :: map EventLoop.animationFrame rest) = Some (outs, st')
      /\ List.length outs = S (List.length rest)
      /\ (forall out it, In out outs -> In it out -> isMoving it = false)
      /\ previousFrameData st' = Uint8ClampedArray (last (first :: rest) []).
Proof.
  intros st width height first rest Hf Hall Hdr.
  cbn [EventLoop.run EventLoop.dispatch].
  rewrite (draw_tick (handleResize st width height) first Hf).
  cbn [handleResize canvas_width canvas_height previousFrameData].
  rewrite (reinit_reset first (frame_nonempty _ _ _ Hf)).
  destruct (run_drifting width height rest first
              {| canvas_width := width; canvas_height := height;
                 previousFrameData := Uint8ClampedArray first |}
              eq_refl eq_refl eq_refl Hf Hall Hdr) as (outs & st' & Hrun & Hstill & Hlast).
  rewrite Hrun. eexists. eexists. split; [reflexivity|]. split; [|split].
  - cbn [List.length]. f_equal.
    rewrite (run_length _ _ _ _ Hrun), length_map. reflexivity.
  - intros out it [<-|Hout] Hin.
    + apply (scan_slow Script.chars width height first first it Hf Hf (slow_refl first) Hin).
    + apply (Hstill out it Hout Hin).
  - exact Hlast.
Qed.

(** *** Motion between two frames *)

(** [isMoving] of the cell at [(x, y)] of a frame against a history frame
    is the integer test on their two green bytes. *)
Lemma cell_isMoving chars width height data hist x y :
  frame_of width height data -> frame_of width height hist ->
  0 <= x < width -> 0 <= y < height ->
  exists g p,
    nth_error data (Z.to_nat ((y * width + x) * 4 + 1)) = Some g
    /\ nth_error hist (Z.to_nat ((y * width + x) * 4 + 1)) = Some p
    /\ isMoving (scan_cell chars Script.motionThreshold width height data
                           (Uint8ClampedArray hist) y x)
       = (8 <? Z.abs (g - p)).
Proof.
  intros Hd Hh Hx Hy. destruct (cell_offset width height x y Hx Hy) as [H0 H3].
  destruct (frame_byte _ _ _ ((y * width + x) * 4 + 1) Hd) as (g & Eg & Bg); [lia|].
  destruct (frame_byte _ _ _ ((y * width + x) * 4 + 1) Hh) as (p & Ep & Bp); [lia|].
  exists g, p. split; [exact Eg|]. split; [exact Ep|].
  unfold scan_cell. cbn [isMoving]. apply pixel_isMoving_bytes; assumption.
Qed.

(** X9: motion detection has no direction: the cells flagged when a frame
    B follows a frame A are the cells flagged when A follows B. *)
Theorem X9_motion_symmetric :
  forall st1 st2 frameA frameB out1 out2 st1' st2',
    canvas_width st2 = canvas_width st1 ->
    canvas_height st2 = canvas_height st1 ->
    frame_of (canvas_width st1) (canvas_height st1) frameA ->
    frame_of (canvas_width st1) (canvas_height st1) frameB ->
    previousFrameData st1 = Uint8ClampedArray frameA ->
    previousFrameData st2 = Uint8ClampedArray frameB ->
    Script.draw st1 frameB = Some (out1, st1') ->
    Script.draw st2 frameA = Some (out2, st2') ->
    map (fun it => (cell_x it, cell_y it, isMoving it)) out1
    = map (fun it => (cell_x it, cell_y it, isMoving it)) out2.
Proof.
  intros st1 st2 frameA frameB out1 out2 st1' st2' Hw Hh HA HB H1 H2 D1 D2.
  apply draw_Some in D1, D2. rewrite Hw, Hh in D2. rewrite H1 in D1. rewrite H2 in D2.
  rewrite (reinit_same_length frameA frameB (frame_length _ _ _ _ HA HB)) in D1.
  rewrite (reinit_same_length frameB frameA (frame_length _ _ _ _ HB HA)) in D2.
  subst out1 out2. rewrite !map_scan.
  apply flat_map_ext_in. intros y Hy. apply map_ext_in. intros x Hx.
  apply (In_steps _ fontSize_pos) in Hy, Hx. destruct Hy as [Hy _], Hx as [Hx _].
  destruct (cell_isMoving Script.chars _ _ frameB frameA x y HB HA Hx Hy)
    as (g & p & Eg & Ep & ->).
  destruct (cell_isMoving Script.chars _ _ frameA frameB x y HA HB Hx Hy)
    as (g' & p' & Eg' & Ep' & ->).
  assert (g' = p) by congruence. assert (p' = g) by congruence. subst g' p'.
  cbn [cell_x cell_y scan_cell]. f_equal. f_equal. lia.
Qed.

(** X10: the length test of [draw] alone protects the diff: on any history
    whose length is not the frame's, a stale one included, the tick flags
    no cell, draws every glyph at opacity 0.3 and leaves the frame as the
    history. *)
Theorem X10_stale_history_reset :
  forall st data,
    frame_of (canvas_width st) (canvas_height st) data ->
    buffer_length (previousFrameData st) <> Z.of_nat (List.length data) ->
    exists out st',
      Script.draw st data = Some (out, st')
      /\ (forall it, In it out -> isMoving it = false)
      /\ (forall it c, In it out -> call it = Some c -> globalAlpha c = lit_0_3)
      /\ previousFrameData st' = Uint8ClampedArray data.
Proof.
  intros st data Hf Hlen. rewrite (draw_tick st data Hf).
  replace (reinit (previousFrameData st) data) with (Uint8ClampedArray data).
  2:{ unfold reinit. destruct (Z.eqb_spec (buffer_length (previousFrameData st))
                                          (Z.of_nat (List.length data)));
      [contradiction | reflexivity]. }
  eexists. eexists. split; [reflexivity|].
  assert (Hstill : forall it,
             In it (scan Script.fontSize Script.chars Script.motionThreshold
                         (canvas_width st) (canvas_height st) data (Uint8ClampedArray data)) ->
             isMoving it = false).
  { intros it Hin. apply (scan_slow Script.chars _ _ data data it Hf Hf (slow_refl data) Hin). }
  split; [exact Hstill|]. split; [|reflexivity].
  intros it c Hin Hc. pose proof (Hstill it Hin) as Hm.
  destruct (scan_cells _ _ _ _ _ _ _ Hin) as (_ & _ & E).
  rewrite E in Hc, Hm. unfold scan_cell in Hc, Hm. cbn [call isMoving] in Hc, Hm.
  destruct (gtb (pixel_avg data _) (of_Z 15)); [|discriminate Hc].
  injection Hc as <-. cbn [globalAlpha]. rewrite Hm. reflexivity.
Qed.

(** *** The properties on the example frames *)

Lemma frame_c_ok : frame_of 8 4 MoreExamples.frame_c.
Proof.
  split; [lia|]. split; [lia|]. split; [reflexivity|]. unfold MoreExamples.frame_c.
  apply Forall_app. split.
  - repeat (constructor; [unfold is_byte; lia|]). constructor.
  - apply Forall_forall. intros v Hv. apply repeat_spec in Hv. subst v. unfold is_byte. lia.
Qed.

Lemma frame_of_repeat width height v n :
  0 < width -> 0 < height -> Z.of_nat n = 4 * width * height -> is_byte v ->
  frame_of width height (repeat v n).
Proof.
  intros Hw Hh Hn Hv. split; [exact Hw|]. split; [exact Hh|]. split.
  - rewrite repeat_length. exact Hn.
  - apply Forall_forall. intros u Hu. apply repeat_spec in Hu. subst u. exact Hv.
Qed.

Lemma slow_repeat a b n : Z.abs (b - a) <= 8 -> EventLoop.slow (repeat a n) (repeat b n).
Proof.
  intros H j p g _ Hp Hg. apply nth_error_In, repeat_spec in Hp, Hg. subst. exact H.
Qed.

Lemma X1_scan_grid_witness :
  exists out st',
    Script.draw Examples.canvas_8x4 Examples.frame_a = Some (out, st')
    /\ Z.of_nat (List.length out) = 2.
Proof.
  eexists. eexists.
  pose proof (draw_tick Examples.canvas_8x4 Examples.frame_a frame_a_ok) as D.
  split; [exact D|].
  destruct (X1_scan_grid Examples.canvas_8x4 Examples.frame_a _ _
              ltac:(cbn; lia) ltac:(cbn; lia) D) as (_ & _ & Hl).
  rewrite Hl. reflexivity.
Defined.

Lemma X2_lightness_bounds_witness :
  exists out st' c,
    Script.draw Examples.canvas_8x4 Examples.frame_a = Some (out, st')
    /\ In (Examples.first_cell Examples.frame_a (Uint8ClampedArray Examples.frame_a)) out
    /\ call (Examples.first_cell Examples.frame_a (Uint8ClampedArray Examples.frame_a)) = Some c
    /\ exists h s l,
        fillStyle c = hsl h s l
        /\ In (h, s) [(25, 100); (240, 100); (0, 0); (130, 90)]
        /\ leb (of_Z 30) l = true /\ leb l (of_Z 80) = true.
Proof.
  eexists. eexists.
  pose proof (draw_tick Examples.canvas_8x4 Examples.frame_a frame_a_ok) as D.
  assert (I : In (Examples.first_cell Examples.frame_a (Uint8ClampedArray Examples.frame_a))
                 (scan Script.fontSize Script.chars Script.motionThreshold 8 4
                       Examples.frame_a (Uint8ClampedArray Examples.frame_a)))
    by (left; reflexivity).
  assert (exists c, call (Examples.first_cell Examples.frame_a
                            (Uint8ClampedArray Examples.frame_a)) = Some c) as [c Hc]
    by (eexists; vm_compute; reflexivity).
  exists c. split; [exact D|]. split; [exact I|]. split; [exact Hc|].
  exact (X2_lightness_bounds Examples.canvas_8x4 Examples.frame_a _ _ _ c frame_a_ok D I Hc).
Defined.

Lemma X3_lightness_saturates_witness :
  exists out st' c,
    Script.draw Examples.canvas_8x4 Examples.frame_a = Some (out, st')
    /\ In (Examples.first_cell Examples.frame_a (Uint8ClampedArray Examples.frame_a)) out
    /\ call (Examples.first_cell Examples.frame_a (Uint8ClampedArray Examples.frame_a)) = Some c
    /\ exists h s l,
        fillStyle c = hsl h s l
        /\ (l = of_Z 30 <->
            Sampling.rgb_sum 8 Examples.frame_a
              (Examples.first_cell Examples.frame_a (Uint8ClampedArray Examples.frame_a)) <= 229)
        /\ (l = of_Z 80 <->
            612 <= Sampling.rgb_sum 8 Examples.frame_a
                     (Examples.first_cell Examples.frame_a (Uint8ClampedArray Examples.frame_a))).
Proof.
  eexists. eexists.
  pose proof (draw_tick Examples.canvas_8x4 Examples.frame_a frame_a_ok) as D.
  assert (I : In (Examples.first_cell Examples.frame_a (Uint8ClampedArray Examples.frame_a))
                 (scan Script.fontSize Script.chars Script.motionThreshold 8 4
                       Examples.frame_a (Uint8ClampedArray Examples.frame_a)))
    by (left; reflexivity).
  assert (exists c, call (Examples.first_cell Examples.frame_a
                            (Uint8ClampedArray Examples.frame_a)) = Some c) as [c Hc]
    by (eexists; vm_compute; reflexivity).
  exists c. split; [exact D|]. split; [exact I|]. split; [exact Hc|].
  exact (X3_lightness_saturates Examples.canvas_8x4 Examples.frame_a _ _ _ c
           frame_a_ok D I Hc).
Defined.

Lemma X4_glyph_integer_witness :
  exists out st',
    Script.draw Examples.canvas_8x4 Examples.frame_a = Some (out, st')
    /\ In (Examples.first_cell Examples.frame_a (Uint8ClampedArray Examples.frame_a)) out
    /\ charIndex Script.chars
         (avg (Examples.first_cell Examples.frame_a (Uint8ClampedArray Examples.frame_a)))
       = of_Z 3.
Proof.
  eexists. eexists.
  pose proof (draw_tick Examples.canvas_8x4 Examples.frame_a frame_a_ok) as D.
  assert (I : In (Examples.first_cell Examples.frame_a (Uint8ClampedArray Examples.frame_a))
                 (scan Script.fontSize Script.chars Script.motionThreshold 8 4
                       Examples.frame_a (Uint8ClampedArray Examples.frame_a)))
    by (left; reflexivity).
  split; [exact D|]. split; [exact I|].
  exact (proj1 (X4_glyph_integer Examples.canvas_8x4 Examples.frame_a _ _ _ frame_a_ok D I)).
Defined.

Lemma X5_drawn_iff_sum_witness :
  exists out st',
    Script.draw Examples.canvas_8x4 Examples.frame_a = Some (out, st')
    /\ In (Examples.first_cell Examples.frame_a (Uint8ClampedArray Examples.frame_a)) out
    /\ call (Examples.first_cell Examples.frame_a (Uint8ClampedArray Examples.frame_a))
       <> None.
Proof.
  eexists. eexists.
  pose proof (draw_tick Examples.canvas_8x4 Examples.frame_a frame_a_ok) as D.
  assert (I : In (Examples.first_cell Examples.frame_a (Uint8ClampedArray Examples.frame_a))
                 (scan Script.fontSize Script.chars Script.motionThreshold 8 4
                       Examples.frame_a (Uint8ClampedArray Examples.frame_a)))
    by (left; reflexivity).
  split; [exact D|]. split; [exact I|].
  apply (proj2 (X5_drawn_iff_sum Examples.canvas_8x4 Examples.frame_a _ _ _ frame_a_ok D I)).
  vm_compute. discriminate.
Defined.

Lemma X6_only_sampled_bytes_witness :
  MoreExamples.frame_c <> Examples.frame_a
  /\ exists out st1 st2,
      Script.draw Examples.canvas_8x4 Examples.frame_a = Some (out, st1)
      /\ Script.draw Examples.canvas_8x4 MoreExamples.frame_c = Some (out, st2).
Proof.
  split; [vm_compute; discriminate|].
  pose proof (draw_tick Examples.canvas_8x4 Examples.frame_a frame_a_ok) as D.
  pose proof (draw_tick Examples.canvas_8x4 MoreExamples.frame_c frame_c_ok) as D'.
  assert (Hsame : forall x y k,
             0 <= x < 8 -> x mod 4 = 0 -> 0 <= y < 4 -> y mod 4 = 0 -> 0 <= k <= 2 ->
             nth_error Examples.frame_a (Z.to_nat ((y * 8 + x) * 4 + k))
             = nth_error MoreExamples.frame_c (Z.to_nat ((y * 8 + x) * 4 + k))).
  { intros x y k Hx Mx Hy My Hk.
    assert (Ey : y = 0) by (rewrite Z.mod_small in My by lia; exact My).
    assert (Ex : x = 0 \/ x = 4).
    { pose proof (Z.div_mod x 4 ltac:(lia)) as Hdm. rewrite Mx in Hdm.
      assert (0 <= x / 4 < 2)
        by (split; [apply Z.div_pos | apply Z.div_lt_upper_bound]; lia).
      lia. }
    assert (Ek : k = 0 \/ k = 1 \/ k = 2) by lia.
    subst y. destruct Ex as [-> | ->]; destruct Ek as [-> | [-> | ->]]; reflexivity. }
  pose proof (X6_only_sampled_bytes Examples.canvas_8x4 Examples.frame_a
                MoreExamples.frame_c _ _ _ _ frame_a_ok frame_c_ok Hsame D D') as E.
  eexists. eexists. eexists. split; [exact D|]. rewrite E. exact D'.
Defined.

Lemma X7_run_never_throws_witness :
  exists outs st',
    EventLoop.run Examples.canvas_8x4
      [EventLoop.loadeddata 8 4 Examples.frame_a;
       EventLoop.animationFrame Examples.frame_b;
       EventLoop.resize 4 4;
       EventLoop.animationFrame (repeat 7 64)] = Some (outs, st')
    /\ List.length outs = 4%nat
    /\ EventLoop.history_fits st'.
Proof.
  refine (X7_run_never_throws _ Examples.canvas_8x4 _ I).
  cbn [EventLoop.delivered].
  split; [exact frame_a_ok|]. split; [exact frame_b_ok|]. split; [|exact I].
  apply frame_of_repeat; [lia | lia | reflexivity | unfold is_byte; lia].
Defined.

Lemma X8_slow_drift_unflagged_witness :
  exists outs st',
    EventLoop.run Examples.canvas_8x4
      (EventLoop.loadeddata 8 4 Examples.frame_a
         :: map EventLoop.animationFrame MoreExamples.drift) = Some (outs, st')
    /\ (forall out it, In out outs -> In it out -> isMoving it = false)
    /\ previousFrameData st' = Uint8ClampedArray (repeat 124 128).
Proof.
  destruct (X8_slow_drift_unflagged Examples.canvas_8x4 8 4 Examples.frame_a
              MoreExamples.drift frame_a_ok) as (outs & st' & Hrun & _ & Hstill & Hlast).
  - unfold MoreExamples.drift.
    repeat (constructor;
            [apply frame_of_repeat; [lia | lia | reflexivity | unfold is_byte; lia]|]).
    constructor.
  - unfold MoreExamples.drift, Examples.frame_a. cbn [EventLoop.drifting].
    repeat (split; [apply slow_repeat; lia|]). exact I.
  - exists outs, st'. split; [exact Hrun|]. split; [exact Hstill | exact Hlast].
Defined.

Lemma X9_motion_symmetric_witness :
  exists out1 out2 st1' st2',
    Script.draw {| canvas_width := 8; canvas_height := 4;
                   previousFrameData := Uint8ClampedArray Examples.frame_a |}
                Examples.frame_b = Some (out1, st1')
    /\ Script.draw {| canvas_width := 8; canvas_height := 4;
                      previousFrameData := Uint8ClampedArray Examples.frame_b |}
                   Examples.frame_a = Some (out2, st2')
    /\ map (fun it => (cell_x it, cell_y it, isMoving it)) out1
       = map (fun it => (cell_x it, cell_y it, isMoving it)) out2.
Proof.
  eexists. eexists. eexists. eexists.
  pose proof (draw_tick {| canvas_width := 8; canvas_height := 4;
                           previousFrameData := Uint8ClampedArray Examples.frame_a |}
                        Examples.frame_b frame_b_ok) as D1.
  pose proof (draw_tick {| canvas_width := 8; canvas_height := 4;
                           previousFrameData := Uint8ClampedArray Examples.frame_b |}
                        Examples.frame_a frame_a_ok) as D2.
  split; [exact D1|]. split; [exact D2|].
  exact (X9_motion_symmetric
           {| canvas_width := 8; canvas_height := 4;
              previousFrameData := Uint8ClampedArray Examples.frame_a |}
           {| canvas_width := 8; canvas_height := 4;
              previousFrameData := Uint8ClampedArray Examples.frame_b |}
           Examples.frame_a Examples.frame_b _ _ _ _
           eq_refl eq_refl frame_a_ok frame_b_ok eq_refl eq_refl D1 D2).
Defined.

Lemma X10_stale_history_reset_witness :
  exists out st',
    Script.draw {| canvas_width := 8; canvas_height := 4;
                   previousFrameData := Uint8ClampedArray (repeat 7 64) |}
                Examples.frame_b = Some (out, st')
    /\ (forall it, In it out -> isMoving it = false)
    /\ previousFrameData st' = Uint8ClampedArray Examples.frame_b.
Proof.
  destruct (X10_stale_history_reset
              {| canvas_width := 8; canvas_height := 4;
                 previousFrameData := Uint8ClampedArray (repeat 7 64) |}
              Examples.frame_b frame_b_ok) as (out & st' & D & Hstill & _ & Hp).
  - vm_compute. discriminate.
  - exists out, st'. split; [exact D|]. split; [exact Hstill | exact Hp].
Defined.
